(** * Fortified Agency Metrics: the metrics aggregator and the budget optimizer

    A shallow embedding of [calculate_campaign_metrics] and [optimize_budget]
    of [app.py].

    Numbers.  The columns of the data frames are numeric; they are modelled
    by exact rationals ([Q], compared with [==]), so the arithmetic of the
    model is the arithmetic of the source without rounding.  Call counts are
    integers ([Z]).  The allocation is a Python [dict] from campaign names to
    call counts: a [gmap string Z].

    Rounding.  The source computes in binary64.  Statements about the
    control flow, about comparisons of given values and about bounds that
    rounding keeps are made on the exact model.  Where an equation between
    computed amounts is stated, the amounts are asked to be integers
    within 2^53, which binary64 adds and subtracts without rounding
    ([exact_amount]); and the module [F64] embeds [optimize_budget] once
    more over binary64 itself, to compute what the source returns where
    rounding shows. *)

From Stdlib Require Import ZArith QArith Qround Lqa Lia List.
From Stdlib Require Import Ascii Sorted.
From Stdlib Require OrderedTypeEx DecimalString DecimalNat.
From Stdlib Require SpecFloat.
From stdpp Require Import gmap strings.

Local Open Scope Z_scope.

(** ** Comparisons and rounding on rationals *)

Module Num.

(** [x < y] as a boolean. *)
Definition Qltb (x y : Q) : bool :=
  match (x ?= y)%Q with Lt => true | _ => false end.

(** [x >= y] as a boolean. *)
Definition Qgeb (x y : Q) : bool := Qle_bool y x.

(** The quotient of two numpy scalars.  A zero divisor does not raise: it
    gives an infinity whose sign is the sign of the dividend, or NaN when
    the dividend is zero too. *)
Inductive npfloat : Type :=
| Fin (q : Q)
| PInf
| NInf
| NaN.

Definition np_div (a b : Q) : npfloat :=
  if Qeq_bool b 0 then
    if Qltb 0 a then PInf else if Qltb a 0 then NInf else NaN
  else Fin (a / b).

(** Multiplication by a positive constant. *)
Definition np_scale (x : npfloat) (k : Q) : npfloat :=
  match x with
  | Fin q => Fin (q * k)
  | other => other
  end.

(** [n < x] for an integer [n]; every comparison with NaN is false. *)
Definition np_below (n : Z) (x : npfloat) : bool :=
  match x with
  | Fin q => Qltb (inject_Z n) q
  | PInf => true
  | NInf | NaN => false
  end.

(** [n <= ceil x], for the finite and the infinite values. *)
Definition np_within_ceil (n : Z) (x : npfloat) : Prop :=
  match x with
  | Fin q => n <= Qceiling q
  | PInf => True
  | NInf | NaN => False
  end.

End Num.
Export Num.

(** ** Data model *)

(** One row of the daily campaign sheet as [load_campaign_data] and
    [clean_numeric] leave it: the rows without a valid date have been
    dropped ([dropna(subset=["Date"])]) and every numeric cell is a number
    ([fillna(0)]).  [Date] is the day number.  The columns ["Lead Cost"],
    ["Total Calls"], ["Paid Calls"] and ["# Unique Sales"] are the fields
    [Lead_Cost], [Total_Calls_d], [Paid_Calls] and [Unique_Sales]. *)
Record daily_record : Type := {
  Date : Z;
  Agency : string;
  Campaign : string;
  Revenue : Q;
  Lead_Cost : Q;
  Total_Calls_d : Q;
  Paid_Calls : Q;
  Unique_Sales : Q
}.

(** One row of the campaign statistics table; [Name] is its index label. *)
Record campaign_row : Type := {
  Name : string;
  Total_Revenue : Q;
  Avg_Daily_Revenue : Q;
  Total_Cost : Q;
  Avg_Daily_Cost : Q;
  Total_Calls : Q;
  Total_Paid_Calls : Q;
  Total_Sales : Q;
  Days_Active : Z;
  ROAS : Q;
  Cost_Per_Call : Q;
  Revenue_Per_Call : Q;
  Conversion_Rate : Q;
  Profit_Per_Call : Q
}.

(** A data frame of campaign statistics: its rows in order.  The labels of
    a table made by [groupby] are distinct, and the statements below ask
    for that ([NoDup (index df)]): on a repeated label [df.loc] yields a
    Series, not a number, and the comparisons of [optimize_budget] raise. *)
Abbreviation frame := (list campaign_row).

(** [df.index] *)
Definition index (df : frame) : list string := map Name df.

(** [df.loc[campaign]]: the row labelled [campaign]. *)
Definition loc (df : frame) (campaign : string) : option campaign_row :=
  List.find (fun r => String.eqb (Name r) campaign) df.

(** [df.loc[campaign, col]] for a numeric column [col]. *)
Definition loc_col {A} (col : campaign_row -> A) (d : A) (df : frame)
    (campaign : string) : A :=
  match loc df campaign with
  | Some r => col r
  | None => d
  end.

(** ** The metrics aggregator *)

Module Aggregator.

(** [if agency and agency != "All": df = df[df["Agency"] == agency]];
    [None] and the empty string are falsy. *)
Definition filter_agency (df : list daily_record) (agency : option string)
    : list daily_record :=
  match agency with
  | None => df
  | Some a =>
      if String.eqb a "" || String.eqb a "All" then df
      else List.filter (fun r => String.eqb (Agency r) a) df
  end.

(** The group labels of [groupby("Campaign")]: the distinct campaign
    names, in increasing order. *)
Fixpoint insert_label (k : string) (sorted : list string) : list string :=
  match sorted with
  | [] => [k]
  | k' :: rest =>
      if String.ltb k k' then k :: k' :: rest else k' :: insert_label k rest
  end.

Definition group_labels (df : list daily_record) : list string :=
  fold_right insert_label [] (remove_dups (map Campaign df)).

(** The records of one group. *)
Definition group (df : list daily_record) (label : string) : list daily_record :=
  List.filter (fun r => String.eqb (Campaign r) label) df.

(** The aggregations ["sum"], ["mean"] and ["count"] over one group.  The
    sum is exact; the source's int64 or binary64 total is this number
    when the cells are integers and the total stays within 2^53. *)
Definition agg_sum (col : daily_record -> Q) (g : list daily_record) : Q :=
  fold_right (fun r acc => (col r + acc)%Q) 0%Q g.

Definition agg_mean (col : daily_record -> Q) (g : list daily_record) : Q :=
  (agg_sum col g / inject_Z (Z.of_nat (length g)))%Q.

Definition agg_count (col : daily_record -> Z) (g : list daily_record) : Z :=
  Z.of_nat (length (map col g)).

(** [series.replace(0, 1)] on one value. *)
Definition replace_0_1 (x : Q) : Q := if Qeq_bool x 0 then 1%Q else x.

(** The aggregated columns of one group and the ratios derived from
    them. *)
Definition aggregate (label : string) (g : list daily_record) : campaign_row :=
  let total_revenue := agg_sum Revenue g in
  let total_cost := agg_sum Lead_Cost g in
  let total_calls := agg_sum Total_Calls_d g in
  let total_paid_calls := agg_sum Paid_Calls g in
  let total_sales := agg_sum Unique_Sales g in
  let cost_per_call := (total_cost / replace_0_1 total_paid_calls)%Q in
  let revenue_per_call := (total_revenue / replace_0_1 total_calls)%Q in
  {| Name := label;
     Total_Revenue := total_revenue;
     Avg_Daily_Revenue := agg_mean Revenue g;
     Total_Cost := total_cost;
     Avg_Daily_Cost := agg_mean Lead_Cost g;
     Total_Calls := total_calls;
     Total_Paid_Calls := total_paid_calls;
     Total_Sales := total_sales;
     Days_Active := agg_count Date g;
     ROAS := (total_revenue / replace_0_1 total_cost)%Q;
     Cost_Per_Call := cost_per_call;
     Revenue_Per_Call := revenue_per_call;
     Conversion_Rate := (total_sales / replace_0_1 total_calls * 100)%Q;
     Profit_Per_Call := (revenue_per_call - cost_per_call)%Q |}.

(** [calculate_campaign_metrics(df, agency)] *)
Definition calculate_campaign_metrics (df : list daily_record)
    (agency : option string) : frame :=
  let df := filter_agency df agency in
  map (fun label => aggregate label (group df label)) (group_labels df).

End Aggregator.
Export Aggregator.

(** ** The budget optimizer *)

Module Optimizer.

(** [allocation.get(campaign, 0)] *)
Definition get (allocation : gmap string Z) (campaign : string) : Z :=
  default 0 (allocation !! campaign).

(** [campaign_stats[campaign_stats["ROAS"] >= min_roas]] *)
Definition select_profitable (campaign_stats : frame) (min_roas : Q) : frame :=
  List.filter (fun r => Qgeb (ROAS r) min_roas) campaign_stats.

(** [sort_values("Profit_Per_Call", ascending=False)]: rows by decreasing
    profit per call; rows of equal profit keep the order of the table. *)
Fixpoint insert_desc (r : campaign_row) (sorted : frame) : frame :=
  match sorted with
  | [] => [r]
  | s :: rest =>
      if Qgeb (Profit_Per_Call r) (Profit_Per_Call s)
      then r :: s :: rest
      else s :: insert_desc r rest
  end.

Definition sort_values (df : frame) : frame :=
  fold_right insert_desc [] df.

(** The capacity ceiling of a campaign:
    [Total_Calls / Days_Active * 1.5]. *)
Definition max_calls (profitable : frame) (campaign : string) : npfloat :=
  let avg_daily :=
    np_div (loc_col Total_Calls 0%Q profitable campaign)
           (inject_Z (loc_col Days_Active 0 profitable campaign)) in
  np_scale avg_daily 1.5.

(** The first loop: every ranked campaign that can afford [min_calls]
    calls gets them. *)
Fixpoint seeding (profitable : frame) (campaigns : list string)
    (min_calls : Z) (allocation : gmap string Z) (remaining_budget : Q)
    : gmap string Z * Q :=
  match campaigns with
  | [] => (allocation, remaining_budget)
  | campaign :: rest =>
      let cost := loc_col Cost_Per_Call 0%Q profitable campaign in
      if Qgeb remaining_budget (cost * inject_Z min_calls)
      then seeding profitable rest min_calls
             (<[campaign := min_calls]> allocation)
             (remaining_budget - cost * inject_Z min_calls)%Q
      else seeding profitable rest min_calls allocation remaining_budget
  end.

(** One pass of the inner [for] loop: the first campaign below its
    ceiling whose cost fits gets one more call, and the pass ends
    ([break]); [None] when the pass allocates nothing. *)
Fixpoint scan (profitable : frame) (campaigns : list string)
    (allocation : gmap string Z) (remaining_budget : Q)
    : option (gmap string Z * Q) :=
  match campaigns with
  | [] => None
  | campaign :: rest =>
      let cost := loc_col Cost_Per_Call 0%Q profitable campaign in
      if np_below (get allocation campaign) (max_calls profitable campaign)
         && Qgeb remaining_budget cost
      then Some (<[campaign := get allocation campaign + 1]> allocation,
                 (remaining_budget - cost)%Q)
      else scan profitable rest allocation remaining_budget
  end.

(** The [while remaining_budget > 0] loop.  [fuel] bounds the number of
    times the loop condition is evaluated; [None] means that the loop was
    still running when the fuel ran out. *)
Fixpoint incremental (fuel : nat) (profitable : frame)
    (allocation : gmap string Z) (remaining_budget : Q)
    : option (gmap string Z * Q) :=
  match fuel with
  | O => None
  | S fuel' =>
      if Qltb 0 remaining_budget then
        match scan profitable (index profitable) allocation remaining_budget with
        | Some (allocation', remaining') =>
            incremental fuel' profitable allocation' remaining'
        | None => Some (allocation, remaining_budget)
        end
      else Some (allocation, remaining_budget)
  end.

(** [optimize_budget(campaign_stats, daily_budget, min_calls, min_roas)].
    The result is the pair of the allocation ([None] for Python's [None])
    and the leftover budget. *)
Definition optimize_budget (fuel : nat) (campaign_stats : frame)
    (daily_budget : Q) (min_calls : Z) (min_roas : Q)
    : option (option (gmap string Z) * Q) :=
  let profitable := select_profitable campaign_stats min_roas in
  match profitable with
  | [] => Some (None, daily_budget)
  | _ :: _ =>
      let profitable := sort_values profitable in
      let '(allocation, remaining_budget) :=
        seeding profitable (index profitable) min_calls ∅ daily_budget in
      match incremental fuel profitable allocation remaining_budget with
      | Some (allocation, remaining_budget) =>
          Some (Some allocation, remaining_budget)
      | None => None
      end
  end.

End Optimizer.
Export Optimizer.

(** ** Quantities the statements are about *)

(** [sum(allocation[c] * cost[c] for c in allocation)] *)
Definition spent_by (cost : string -> Q) (allocation : gmap string Z) : Q :=
  map_fold (fun c n acc => (inject_Z n * cost c + acc)%Q) 0%Q allocation.

(** [sum(allocation[c] * Cost_Per_Call[c] for c in allocation)] *)
Definition spent (campaign_stats : frame) (allocation : gmap string Z) : Q :=
  spent_by (loc_col Cost_Per_Call 0%Q campaign_stats) allocation.

(** The ranked table of the qualifying campaigns and the state after the
    seeding loop. *)
Definition ranked (campaign_stats : frame) (min_roas : Q) : frame :=
  sort_values (select_profitable campaign_stats min_roas).

Definition seeded (campaign_stats : frame) (daily_budget : Q) (min_calls : Z)
    (min_roas : Q) : gmap string Z * Q :=
  let profitable := ranked campaign_stats min_roas in
  seeding profitable (index profitable) min_calls ∅ daily_budget.

(** The calls a campaign can still receive before it reaches its ceiling,
    and their total over the ranked campaigns: a bound on the iterations
    of the [while] loop when every ceiling is finite. *)
Definition headroom (profitable : frame) (allocation : gmap string Z)
    (campaign : string) : nat :=
  match max_calls profitable campaign with
  | Fin q => Z.to_nat (Qceiling q - get allocation campaign)
  | _ => 0%nat
  end.

Definition loop_measure (profitable : frame) (campaigns : list string)
    (allocation : gmap string Z) : nat :=
  sum_list (map (headroom profitable allocation) campaigns).

Definition loop_bound (campaign_stats : frame) (daily_budget : Q)
    (min_calls : Z) (min_roas : Q) : nat :=
  let profitable := ranked campaign_stats min_roas in
  S (loop_measure profitable (index profitable)
       (seeded campaign_stats daily_budget min_calls min_roas).1).

(** Every qualifying campaign was active on at least one day. *)
Definition days_positive (campaign_stats : frame) (min_roas : Q) : Prop :=
  forall r, r ∈ campaign_stats -> (min_roas <= ROAS r)%Q -> 0 < Days_Active r.

(** ** Tables of the scenarios *)

(** A row of statistics given by the columns that [optimize_budget] reads;
    [Profit_Per_Call] is [Revenue_Per_Call - Cost_Per_Call] and the other
    columns are 0. *)
Definition stats_row (name : string) (cost_per_call revenue_per_call roas
    total_calls : Q) (days_active : Z) : campaign_row :=
  {| Name := name; Total_Revenue := 0; Avg_Daily_Revenue := 0;
     Total_Cost := 0; Avg_Daily_Cost := 0; Total_Calls := total_calls;
     Total_Paid_Calls := 0; Total_Sales := 0; Days_Active := days_active;
     ROAS := roas; Cost_Per_Call := cost_per_call;
     Revenue_Per_Call := revenue_per_call; Conversion_Rate := 0;
     Profit_Per_Call := (revenue_per_call - cost_per_call)%Q |}.

(** Campaigns A and B of the two-campaign scenario. *)
Definition stats_AB : frame :=
  [ stats_row "A" 10 15 1.5 100 10;
    stats_row "B" 5 6 1.2 50 10 ].

(** One campaign with 10 calls over 10 days (ceiling 1.5) at 10 per call:
    with [min_calls = 5] the seeding loop alone puts it above its ceiling. *)
Definition stats_slow : frame := [ stats_row "S" 10 20 2 10 10 ].

(** One campaign with 10 calls on one day (ceiling 15) at 10 per call: a
    budget of 15 does not pay for [min_calls = 2] calls but pays for one. *)
Definition stats_single : frame := [ stats_row "C" 10 20 2 10 1 ].

(** A table on which nothing reaches a ROAS of 2. *)
Definition stats_weak : frame :=
  [ stats_row "A" 10 15 1.5 100 10; stats_row "B" 5 6 1.2 50 10 ].

(** A sheet with one record of a campaign that had revenue and sales but
    no cost and no calls. *)
Definition sheet_idle : list daily_record :=
  [ {| Date := 1; Agency := "North"; Campaign := "idle"; Revenue := 40;
       Lead_Cost := 0; Total_Calls_d := 0; Paid_Calls := 0;
       Unique_Sales := 2 |} ].

(** ** Cleaning of the numeric cells *)

Module Cleaning.

(** The text of a cell ([astype(str)]) is taken to be ASCII: one character
    is one byte below 128.  On such text [\d] is one of the ten digits. *)
Definition is_ascii_char (c : ascii) : bool := (N_of_ascii c <? 128)%N.

Fixpoint is_ascii (s : string) : bool :=
  match s with
  | EmptyString => true
  | String c s' => is_ascii_char c && is_ascii s'
  end.

Definition is_digit (c : ascii) : bool :=
  ((48 <=? N_of_ascii c) && (N_of_ascii c <=? 57))%N.

Definition digit_value (c : ascii) : Z := Z.of_N (N_of_ascii c) - 48.

(** A character that the pattern [[^\d.]] does not match. *)
Definition kept (c : ascii) : bool := is_digit c || Ascii.eqb c ".".

(** [str.replace(r"[^\d.]", "", regex=True)] *)
Fixpoint strip (s : string) : string :=
  match s with
  | EmptyString => EmptyString
  | String c s' => if kept c then String c (strip s') else strip s'
  end.

(** [Series.replace("", "0")] on one cell. *)
Definition replace_empty (s : string) : string :=
  if String.eqb s "" then "0" else s.

(** The leading digits of a text: their decimal value, their number, and
    the rest of the text. *)
Fixpoint take_digits (s : string) (acc : Z) (n : nat) : Z * nat * string :=
  match s with
  | EmptyString => (acc, n, s)
  | String c s' =>
      if is_digit c then take_digits s' (10 * acc + digit_value c) (S n)
      else (acc, n, s)
  end.

(** [pd.to_numeric(errors="coerce")] on a text of digits and dots, the only
    text that reaches it: digits, then possibly a dot and digits, with at
    least one digit in all; anything else is NaN ([None]).  The value is
    exact; the source's is this number for an integer up to 2^53 and its
    nearest binary64 number otherwise. *)
Definition to_numeric (s : string) : option Q :=
  let '(int_part, n_int, rest) := take_digits s 0 0 in
  match rest with
  | EmptyString =>
      if Nat.eqb n_int 0 then None else Some (inject_Z int_part)
  | String c frac =>
      if Ascii.eqb c "." then
        let '(frac_part, n_frac, rest') := take_digits frac 0 0 in
        match rest' with
        | EmptyString =>
            if Nat.eqb (n_int + n_frac) 0 then None
            else Some (inject_Z int_part
                       + inject_Z frac_part / inject_Z (10 ^ Z.of_nat n_frac))%Q
        | String _ _ => None
        end
      else None
  end.

(** What [clean_numeric] makes of one cell: strip, replace the empty text,
    convert, and [fillna(0)]. *)
Definition clean_cell (s : string) : Q :=
  default 0%Q (to_numeric (replace_empty (strip s))).

(** The number of dots of a text. *)
Fixpoint dots (s : string) : nat :=
  match s with
  | EmptyString => 0
  | String c s' => (if Ascii.eqb c "." then 1 else 0) + dots s'
  end.

(** The number of digits of a text. *)
Fixpoint digits (s : string) : nat :=
  match s with
  | EmptyString => 0
  | String c s' => (if is_digit c then 1 else 0) + digits s'
  end.

End Cleaning.
Export Cleaning.

(** ** Cleaning of the column labels by the loaders *)

Module Loader.

Section Columns.

Context {A : Type}.

(** A column of the sheet: its label ([None] for a missing label, NaN) and
    its cells. *)
Definition column : Type := option string * A.

(** [df.loc[:, ~df.columns.duplicated(keep='first')]]; [seen] holds the
    labels met so far. *)
Fixpoint drop_duplicated (seen : list (option string)) (cols : list column)
    : list column :=
  match cols with
  | [] => []
  | col :: rest =>
      if bool_decide (col.1 ∈ seen) then drop_duplicated seen rest
      else col :: drop_duplicated (col.1 :: seen) rest
  end.

(** [df.loc[:, df.columns.notna()]] *)
Definition drop_na (cols : list column) : list column :=
  List.filter (fun col => match col.1 with Some _ => true | None => false end) cols.

(** [df.loc[:, df.columns != '']] *)
Definition drop_empty (cols : list column) : list column :=
  List.filter (fun col => negb (bool_decide (col.1 = Some ""))) cols.

(** The three selections with which every loader starts. *)
Definition clean_columns (cols : list column) : list column :=
  drop_empty (drop_na (drop_duplicated [] cols)).

(** [df[label]] on labels that are distinct; in general the first column
    with that label. *)
Definition column_of (cols : list column) (label : string) : option A :=
  snd <$> List.find (fun col => bool_decide (col.1 = Some label)) cols.

End Columns.

End Loader.
Export Loader.

(** ** The week of the home view *)

Module Home.

(** [date.weekday()]: Monday is 0 and Sunday is 6.  A date is its
    proleptic Gregorian ordinal ([date.toordinal()]); day 1 was a Monday. *)
Definition weekday (d : Z) : Z := (d + 6) mod 7.

(** [sunday = today - timedelta(days=(today.weekday() + 1) % 7)] *)
Definition week_start (today : Z) : Z := today - (weekday today + 1) mod 7.

End Home.
Export Home.

(** ** The key figures of the campaign view *)

Module CampaignView.

(** [if selected != "All": df = df[df[col] == selected]] *)
Definition select (col : daily_record -> string) (selected : string)
    (df : list daily_record) : list daily_record :=
  if String.eqb selected "All" then df
  else List.filter (fun r => String.eqb (col r) selected) df.

Record kpis : Type := {
  kpi_total_revenue : Q;
  kpi_total_cost : Q;
  kpi_total_sales : Q;
  kpi_roas : Q
}.

(** The four metrics of the campaign view after the agency and campaign
    filters. *)
Definition campaign_kpis (df_campaign : list daily_record)
    (selected_agency selected_campaign : string) : kpis :=
  let df_campaign := select Agency selected_agency df_campaign in
  let df_campaign := select Campaign selected_campaign df_campaign in
  let total_revenue := agg_sum Revenue df_campaign in
  let total_cost := agg_sum Lead_Cost df_campaign in
  let total_sales := agg_sum Unique_Sales df_campaign in
  {| kpi_total_revenue := total_revenue;
     kpi_total_cost := total_cost;
     kpi_total_sales := total_sales;
     kpi_roas :=
       (total_revenue / (if Qeq_bool total_cost 0 then 1 else total_cost))%Q |}.

End CampaignView.
Export CampaignView.

(** ** The report of the budget optimizer view *)

Module Report.

(** One result row, with the numbers that the view formats as text. *)
Record result_row : Type := {
  Row_Campaign : string;
  Recommended_Calls : Z;
  Budget : Q;
  Expected_Revenue : Q;
  Row_ROAS : Q;
  ROI : Q
}.

(** The body of the loop over [allocation.items()]. *)
Definition result_row_of (stats : frame) (campaign : string) (calls : Z)
    : result_row :=
  let cost := loc_col Cost_Per_Call 0%Q stats campaign in
  let revenue := loc_col Revenue_Per_Call 0%Q stats campaign in
  let budget := (inject_Z calls * cost)%Q in
  let expected_revenue := (inject_Z calls * revenue)%Q in
  let roi :=
    if Qeq_bool budget 0 then 0%Q
    else ((expected_revenue / budget - 1) * 100)%Q in
  {| Row_Campaign := campaign;
     Recommended_Calls := calls;
     Budget := budget;
     Expected_Revenue := expected_revenue;
     Row_ROAS := loc_col ROAS 0%Q stats campaign;
     ROI := roi |}.

(** [total_cost] and [total_revenue] after the loop. *)
Definition total_cost (stats : frame) (allocation : gmap string Z) : Q :=
  map_fold (fun c n acc => (acc + Budget (result_row_of stats c n))%Q)
    0%Q allocation.

Definition total_revenue (stats : frame) (allocation : gmap string Z) : Q :=
  map_fold (fun c n acc => (acc + Expected_Revenue (result_row_of stats c n))%Q)
    0%Q allocation.

(** What the view shows: the warning, or the report with its rows (by
    campaign), the three totals and the expected ROAS. *)
Inductive optimizer_view : Type :=
| No_Campaigns_Warning
| Allocation_Report (rows : gmap string result_row)
    (total_budget expected_revenue expected_profit : Q)
    (expected_roas : npfloat).

(** The view from [calculate_campaign_metrics] on: [min_calls] keeps its
    default 1, and [if allocation:] is false for [None] and for the empty
    dict. *)
Definition budget_optimizer_view (fuel : nat) (df : list daily_record)
    (selected_agency : string) (daily_budget min_roas : Q)
    : option optimizer_view :=
  let stats := calculate_campaign_metrics df (Some selected_agency) in
  match optimize_budget fuel stats daily_budget 1 min_roas with
  | None => None
  | Some (None, _) => Some No_Campaigns_Warning
  | Some (Some allocation, leftover) =>
      if bool_decide (allocation = ∅) then Some No_Campaigns_Warning
      else
        let cost := total_cost stats allocation in
        let revenue := total_revenue stats allocation in
        Some (Allocation_Report
                (map_imap (fun c n => Some (result_row_of stats c n)) allocation)
                cost revenue (revenue - cost)%Q (np_div revenue cost))
  end.

End Report.
Export Report.

(** ** Quantities of the further statements *)

(** [table[col].sum()] *)
Definition column_total (col : campaign_row -> Q) (table : frame) : Q :=
  fold_right (fun r acc => (col r + acc)%Q) 0%Q table.

(** A record whose numeric cells are not negative, as [clean_numeric]
    leaves them. *)
Definition nonneg_record (r : daily_record) : Prop :=
  (0 <= Revenue r)%Q /\ (0 <= Lead_Cost r)%Q /\ (0 <= Total_Calls_d r)%Q
  /\ (0 <= Paid_Calls r)%Q /\ (0 <= Unique_Sales r)%Q.

(** The order of the group labels. *)
Definition label_lt (a b : string) : Prop := String.ltb a b = true.

(** A sheet of three records, two campaigns and two agencies. *)
Definition sheet_three : list daily_record :=
  [ {| Date := 1; Agency := "North"; Campaign := "web"; Revenue := 100;
       Lead_Cost := 50; Total_Calls_d := 10; Paid_Calls := 5;
       Unique_Sales := 2 |};
    {| Date := 2; Agency := "South"; Campaign := "radio"; Revenue := 30;
       Lead_Cost := 40; Total_Calls_d := 4; Paid_Calls := 4;
       Unique_Sales := 1 |};
    {| Date := 2; Agency := "North"; Campaign := "web"; Revenue := 200;
       Lead_Cost := 50; Total_Calls_d := 20; Paid_Calls := 5;
       Unique_Sales := 3 |} ].

(** ** Amounts that binary64 holds exactly *)

(** An integer. *)
Definition whole (q : Q) : Prop := (inject_Z (Qfloor q) == q)%Q.

(** 2^53: up to it every integer is a binary64 number, and sums and
    differences of such integers that stay in the range are not rounded. *)
Definition two53 : Q := 9007199254740992.

(** The largest int64, the bound of an integer column total. *)
Definition int64_max : Q := 9223372036854775807.

(** A non-negative integer amount below 2^53: a product that is rounded
    is at least 2^53, so it never passes for an amount that fits. *)
Definition exact_amount (q : Q) : Prop :=
  whole q /\ (0 <= q)%Q /\ (q < two53)%Q.

(** A record whose numeric cells are non-negative integers. *)
Definition whole_record (r : daily_record) : Prop :=
  nonneg_record r
  /\ whole (Revenue r) /\ whole (Lead_Cost r) /\ whole (Total_Calls_d r)
  /\ whole (Paid_Calls r) /\ whole (Unique_Sales r).

(** The five column totals of a sheet are at most [bound]. *)
Definition totals_within (bound : Q) (df : list daily_record) : Prop :=
  (agg_sum Revenue df <= bound)%Q /\ (agg_sum Lead_Cost df <= bound)%Q
  /\ (agg_sum Total_Calls_d df <= bound)%Q
  /\ (agg_sum Paid_Calls df <= bound)%Q
  /\ (agg_sum Unique_Sales df <= bound)%Q.

(** [table["Days_Active"].sum()] *)
Definition days_total (table : frame) : Z :=
  fold_right (fun r acc => Days_Active r + acc) 0 table.

(** ** The optimizer over binary64 *)

Module F64.

Import Stdlib.Floats.SpecFloat.

(** A binary64 number, in the specification of IEEE 754 arithmetic of the
    Standard Library: 53 bits of precision, exponents up to 1024, every
    operation rounded to nearest, ties to even. *)
Definition float : Type := spec_float.

Definition add : float -> float -> float := SFadd 53 1024.
Definition sub : float -> float -> float := SFsub 53 1024.
Definition mul : float -> float -> float := SFmul 53 1024.
Definition div : float -> float -> float := SFdiv 53 1024.
Definition ltb : float -> float -> bool := SFltb.
Definition leb : float -> float -> bool := SFleb.
Definition eqb : float -> float -> bool := SFeqb.

(** A Python int as a binary64 number. *)
Definition of_int (z : Z) : float := binary_normalize 53 1024 z 0 false.

(** The columns of the statistics table that [optimize_budget] reads. *)
Record stats_row : Type := {
  Name : string;
  ROAS : float;
  Cost_Per_Call : float;
  Profit_Per_Call : float;
  Total_Calls : float;
  Days_Active : Z
}.

Definition index (df : list stats_row) : list string := map Name df.

Definition loc (df : list stats_row) (campaign : string) : option stats_row :=
  List.find (fun r => String.eqb (Name r) campaign) df.

Definition loc_col (col : stats_row -> float) (df : list stats_row)
    (campaign : string) : float :=
  match loc df campaign with
  | Some r => col r
  | None => S754_nan
  end.

(** [campaign_stats[campaign_stats["ROAS"] >= min_roas]] *)
Definition select_profitable (campaign_stats : list stats_row)
    (min_roas : float) : list stats_row :=
  List.filter (fun r => leb min_roas (ROAS r)) campaign_stats.

(** [sort_values("Profit_Per_Call", ascending=False)] *)
Fixpoint insert_desc (r : stats_row) (sorted : list stats_row)
    : list stats_row :=
  match sorted with
  | [] => [r]
  | s :: rest =>
      if leb (Profit_Per_Call s) (Profit_Per_Call r)
      then r :: s :: rest
      else s :: insert_desc r rest
  end.

Definition sort_values (df : list stats_row) : list stats_row :=
  fold_right insert_desc [] df.

(** [Total_Calls / Days_Active * 1.5]; the division and the product are
    those of binary64, infinities and NaN included. *)
Definition max_calls (profitable : list stats_row) (campaign : string) : float :=
  let avg_daily :=
    div (loc_col Total_Calls profitable campaign)
        (match loc profitable campaign with
         | Some r => of_int (Days_Active r)
         | None => S754_nan
         end) in
  mul avg_daily (div (of_int 3) (of_int 2)).

Fixpoint seeding (profitable : list stats_row) (campaigns : list string)
    (min_calls : Z) (allocation : gmap string Z) (remaining_budget : float)
    : gmap string Z * float :=
  match campaigns with
  | [] => (allocation, remaining_budget)
  | campaign :: rest =>
      let cost := loc_col Cost_Per_Call profitable campaign in
      if leb (mul cost (of_int min_calls)) remaining_budget
      then seeding profitable rest min_calls
             (<[campaign := min_calls]> allocation)
             (sub remaining_budget (mul cost (of_int min_calls)))
      else seeding profitable rest min_calls allocation remaining_budget
  end.

Fixpoint scan (profitable : list stats_row) (campaigns : list string)
    (allocation : gmap string Z) (remaining_budget : float)
    : option (gmap string Z * float) :=
  match campaigns with
  | [] => None
  | campaign :: rest =>
      let cost := loc_col Cost_Per_Call profitable campaign in
      if ltb (of_int (get allocation campaign)) (max_calls profitable campaign)
         && leb cost remaining_budget
      then Some (<[campaign := get allocation campaign + 1]> allocation,
                 sub remaining_budget cost)
      else scan profitable rest allocation remaining_budget
  end.

Fixpoint incremental (fuel : nat) (profitable : list stats_row)
    (allocation : gmap string Z) (remaining_budget : float)
    : option (gmap string Z * float) :=
  match fuel with
  | O => None
  | S fuel' =>
      if ltb (of_int 0) remaining_budget then
        match scan profitable (index profitable) allocation remaining_budget with
        | Some (allocation', remaining') =>
            incremental fuel' profitable allocation' remaining'
        | None => Some (allocation, remaining_budget)
        end
      else Some (allocation, remaining_budget)
  end.

(** [optimize_budget] as in [Optimizer], every amount a binary64 number. *)
Definition optimize_budget (fuel : nat) (campaign_stats : list stats_row)
    (daily_budget : float) (min_calls : Z) (min_roas : float)
    : option (option (gmap string Z) * float) :=
  let profitable := select_profitable campaign_stats min_roas in
  match profitable with
  | [] => Some (None, daily_budget)
  | _ :: _ =>
      let profitable := sort_values profitable in
      let '(allocation, remaining_budget) :=
        seeding profitable (index profitable) min_calls ∅ daily_budget in
      match incremental fuel profitable allocation remaining_budget with
      | Some (allocation, remaining_budget) =>
          Some (Some allocation, remaining_budget)
      | None => None
      end
  end.

(** [sum(allocation[c] * Cost_Per_Call[c] for c in allocation)], added
    from 0 in the order of the items. *)
Definition spent (campaign_stats : list stats_row)
    (allocation : gmap string Z) : float :=
  fold_left
    (fun acc item =>
       add acc (mul (of_int item.2) (loc_col Cost_Per_Call campaign_stats item.1)))
    (map_to_list allocation) (of_int 0).

(** The doubles of the literals 0.1 and 0.7: the quotients [1 / 10] and
    [7 / 10] rounded to nearest. *)
Definition tenth : float := div (of_int 1) (of_int 10).
Definition seven_tenths : float := div (of_int 7) (of_int 10).

(** One campaign at 0.1 per call, ceiling [100 / 10 * 1.5 = 15]. *)
Definition stats_dime : list stats_row :=
  [ {| Name := "D"; ROAS := of_int 2; Cost_Per_Call := tenth;
       Profit_Per_Call := tenth; Total_Calls := of_int 100;
       Days_Active := 10 |} ].

(** One campaign at [25 / 11] per call (a total cost of 25 over 11 paid
    calls), ceiling [30 / 1 * 1.5 = 45]. *)
Definition stats_eleventh : list stats_row :=
  [ {| Name := "E"; ROAS := of_int 2;
       Cost_Per_Call := div (of_int 25) (of_int 11);
       Profit_Per_Call := of_int 1; Total_Calls := of_int 30;
       Days_Active := 1 |} ].

(** Campaigns A and B of the two-campaign scenario. *)
Definition stats_AB : list stats_row :=
  [ {| Name := "A"; ROAS := div (of_int 15) (of_int 10);
       Cost_Per_Call := of_int 10; Profit_Per_Call := of_int 5;
       Total_Calls := of_int 100; Days_Active := 10 |};
    {| Name := "B"; ROAS := div (of_int 12) (of_int 10);
       Cost_Per_Call := of_int 5; Profit_Per_Call := of_int 1;
       Total_Calls := of_int 50; Days_Active := 10 |} ].

End F64.


(** ** Facts about the comparisons *)

Section NumFacts.

Lemma Qltb_lt (x y : Q) : Qltb x y = true <-> (x < y)%Q.
Proof.
  unfold Qltb. rewrite Qlt_alt. destruct (x ?= y)%Q; split; congruence.
Qed.

Lemma Qgeb_le (x y : Q) : Qgeb x y = true <-> (y <= x)%Q.
Proof. unfold Qgeb. apply Qle_bool_iff. Qed.

Lemma Qgeb_false (x y : Q) : Qgeb x y = false <-> (x < y)%Q.
Proof.
  rewrite <- not_true_iff_false, Qgeb_le. split.
  - apply Qnot_le_lt.
  - apply Qlt_not_le.
Qed.

(** An integer strictly below [q] can grow by one and stay within
    [ceil q]. *)
Lemma below_succ_ceiling (n : Z) (q : Q) :
  (inject_Z n < q)%Q -> n + 1 <= Qceiling q.
Proof.
  intros Hlt.
  assert (Hc : (inject_Z n < inject_Z (Qceiling q))%Q).
  { eapply Qlt_le_trans; [exact Hlt | apply Qle_ceiling]. }
  rewrite <- Zlt_Qlt in Hc. lia.
Qed.

Lemma np_below_succ (n : Z) (x : npfloat) :
  np_below n x = true -> np_within_ceil (n + 1) x.
Proof.
  destruct x as [q| | |]; simpl; try done.
  rewrite Qltb_lt. apply below_succ_ceiling.
Qed.

Lemma np_div_fin (a b : Q) : ~ (b == 0)%Q -> np_div a b = Fin (a / b).
Proof.
  intros Hb. unfold np_div.
  destruct (Qeq_bool b 0) eqn:E; [|done].
  apply Qeq_bool_iff in E. contradiction.
Qed.

End NumFacts.

(** ** Facts about tables *)

Section FrameFacts.

Lemma loc_Some (df : frame) (c : string) (r : campaign_row) :
  loc df c = Some r -> r ∈ df /\ Name r = c.
Proof.
  unfold loc. intros H. apply find_some in H as [Hin Heq].
  split; [by apply list_elem_of_In | by apply String.eqb_eq].
Qed.

Lemma loc_None (df : frame) (c : string) :
  loc df c = None -> c ∉ index df.
Proof.
  unfold loc, index. intros H [r [-> Hr]]%list_elem_of_fmap.
  apply list_elem_of_In in Hr.
  pose proof (find_none _ _ H r Hr) as Hf. simpl in Hf.
  by rewrite String.eqb_refl in Hf.
Qed.

Lemma loc_unique (df : frame) (r : campaign_row) :
  NoDup (index df) -> r ∈ df -> loc df (Name r) = Some r.
Proof.
  unfold loc, index. induction df as [|s df IH]; intros Hnd Hin.
  - by apply elem_of_nil in Hin.
  - simpl in *. apply NoDup_cons in Hnd as [Hs Hnd].
    destruct (String.eqb (Name s) (Name r)) eqn:E.
    + apply String.eqb_eq in E.
      apply elem_of_cons in Hin as [->|Hin]; [done|].
      exfalso. apply Hs. rewrite E. apply list_elem_of_fmap. eauto.
    + apply elem_of_cons in Hin as [->|Hin].
      * by rewrite String.eqb_refl in E.
      * by apply IH.
Qed.

Lemma insert_desc_perm (r : campaign_row) (df : frame) :
  insert_desc r df ≡ₚ r :: df.
Proof.
  induction df as [|s df IH]; simpl; [done|].
  destruct (Qgeb _ _); [done|].
  rewrite IH. apply Permutation_swap.
Qed.

Lemma sort_values_perm (df : frame) : sort_values df ≡ₚ df.
Proof.
  unfold sort_values. induction df as [|r df IH]; simpl; [done|].
  by rewrite insert_desc_perm, IH.
Qed.

Lemma ranked_elem (stats : frame) (min_roas : Q) (r : campaign_row) :
  r ∈ ranked stats min_roas <-> r ∈ stats /\ (min_roas <= ROAS r)%Q.
Proof.
  unfold ranked, select_profitable. rewrite sort_values_perm.
  rewrite !list_elem_of_In, filter_In, Qgeb_le. done.
Qed.

Lemma index_filter_NoDup (f : campaign_row -> bool) (df : frame) :
  NoDup (index df) -> NoDup (index (List.filter f df)).
Proof.
  unfold index. induction df as [|r df IH]; simpl; [done|].
  intros [Hr Hnd]%NoDup_cons. specialize (IH Hnd).
  destruct (f r); simpl; [|done].
  apply NoDup_cons. split; [|done].
  intros [s [Hs Hin]]%list_elem_of_fmap. apply Hr.
  apply list_elem_of_fmap. exists s. split; [done|].
  apply list_elem_of_In in Hin. apply filter_In in Hin as [Hin _].
  by apply list_elem_of_In.
Qed.

Lemma ranked_NoDup (stats : frame) (min_roas : Q) :
  NoDup (index stats) -> NoDup (index (ranked stats min_roas)).
Proof.
  intros Hnd. unfold ranked, index.
  rewrite sort_values_perm. by apply index_filter_NoDup.
Qed.

(** On the campaigns that qualify, the ranked table and the input table
    hold the same row. *)
Lemma ranked_loc (stats : frame) (min_roas : Q) (c : string) :
  NoDup (index stats) -> c ∈ index (ranked stats min_roas) ->
  exists r, loc (ranked stats min_roas) c = Some r /\ loc stats c = Some r
            /\ r ∈ stats /\ (min_roas <= ROAS r)%Q /\ Name r = c.
Proof.
  intros Hnd [r [-> Hr]]%list_elem_of_fmap.
  exists r. pose proof Hr as [Hin Hroas]%ranked_elem.
  repeat split; try done.
  - apply loc_unique; [by apply ranked_NoDup | done].
  - by apply loc_unique.
Qed.

End FrameFacts.

(** ** Facts about the money spent by an allocation *)

Section Spent.

Variable cost : string -> Q.

Lemma spent_by_empty : spent_by cost ∅ = 0%Q.
Proof. apply map_fold_empty. Qed.

Lemma spent_by_fresh (m : gmap string Z) (c : string) (n : Z) :
  m !! c = None ->
  (spent_by cost (<[c := n]> m) == inject_Z n * cost c + spent_by cost m)%Q.
Proof.
  intros Hc.
  refine (map_fold_insert Qeq
            (fun c n acc => (inject_Z n * cost c + acc)%Q) 0%Q c n m _ _ Hc).
  - intros j z x y Hxy. by rewrite Hxy.
  - intros. ring.
Qed.

Lemma spent_by_delete (m : gmap string Z) (c : string) (n : Z) :
  m !! c = Some n ->
  (spent_by cost m == inject_Z n * cost c + spent_by cost (delete c m))%Q.
Proof.
  intros Hc.
  refine (map_fold_delete Qeq
            (fun c n acc => (inject_Z n * cost c + acc)%Q) 0%Q c n m _ _ Hc).
  - intros j z x y Hxy. by rewrite Hxy.
  - intros. ring.
Qed.

(** Writing [n] at [c] changes the money spent by the change of the
    count of [c] times its cost. *)
Lemma spent_by_insert (m : gmap string Z) (c : string) (n : Z) :
  (spent_by cost (<[c := n]> m)
   == spent_by cost m + (inject_Z n - inject_Z (get m c)) * cost c)%Q.
Proof.
  unfold get. destruct (m !! c) as [x|] eqn:Hc; simpl.
  - rewrite <- (insert_delete_eq m c n).
    rewrite spent_by_fresh by apply lookup_delete_eq.
    rewrite (spent_by_delete m c x Hc). ring.
  - rewrite spent_by_fresh by done. ring.
Qed.

End Spent.

Lemma spent_by_ext (cost1 cost2 : string -> Q) (m : gmap string Z) :
  (forall c, is_Some (m !! c) -> cost1 c = cost2 c) ->
  (spent_by cost1 m == spent_by cost2 m)%Q.
Proof.
  induction m as [|c n m Hc IH] using map_ind; intros Hext.
  - by rewrite !spent_by_empty.
  - rewrite !spent_by_fresh by done.
    rewrite IH, (Hext c).
    + reflexivity.
    + rewrite lookup_insert_eq. by eexists.
    + intros c' Hc'. apply Hext.
      destruct (decide (c = c')) as [->|Hne].
      * rewrite Hc in Hc'. by destruct Hc'.
      * by rewrite lookup_insert_ne.
Qed.

(** ** The two loops of the optimizer *)

(** Membership in a list with a known head. *)
Ltac in_head := apply elem_of_cons; left; reflexivity.
Ltac in_tail := apply elem_of_cons; right; assumption.

Section Loops.

Variable profitable : frame.
Variable min_calls : Z.

Let cost : string -> Q := loc_col Cost_Per_Call 0%Q profitable.

(** What a pass that allocates does. *)
Lemma scan_Some (campaigns : list string) (a : gmap string Z) (rem : Q)
    (a' : gmap string Z) (rem' : Q) :
  scan profitable campaigns a rem = Some (a', rem') ->
  exists c, c ∈ campaigns
    /\ np_below (get a c) (max_calls profitable c) = true
    /\ (cost c <= rem)%Q
    /\ a' = <[c := get a c + 1]> a
    /\ rem' = (rem - cost c)%Q.
Proof.
  induction campaigns as [|c cs IH]; simpl; [done|].
  destruct (np_below _ _ && Qgeb _ _) eqn:E.
  - intros [= <- <-]. apply andb_true_iff in E as [Hb Hc].
    apply Qgeb_le in Hc. exists c. repeat split; try done. in_head.
  - intros (c' & Hin & H)%IH. exists c'. split; [in_tail | done].
Qed.

(** A pass that allocates nothing found no campaign that is below its
    ceiling and affordable. *)
Lemma scan_None (campaigns : list string) (a : gmap string Z) (rem : Q) :
  scan profitable campaigns a rem = None ->
  forall c, c ∈ campaigns ->
    np_below (get a c) (max_calls profitable c) = false \/ (rem < cost c)%Q.
Proof.
  induction campaigns as [|c cs IH]; simpl; intros Hs c' Hin.
  - by apply elem_of_nil in Hin.
  - destruct (np_below _ _ && Qgeb _ _) eqn:E; [done|].
    apply elem_of_cons in Hin as [->|Hin]; [|by apply IH].
    apply andb_false_iff in E as [E|E]; [by left | right; by apply Qgeb_false].
Qed.

(** Invariants of the [while] loop are the properties that every
    allocating pass preserves. *)
Lemma incremental_invariant (I : gmap string Z -> Q -> Prop) :
  (forall a rem c,
      I a rem -> c ∈ index profitable ->
      np_below (get a c) (max_calls profitable c) = true ->
      (cost c <= rem)%Q ->
      I (<[c := get a c + 1]> a) (rem - cost c)%Q) ->
  forall fuel a rem a' rem',
    I a rem -> incremental fuel profitable a rem = Some (a', rem') -> I a' rem'.
Proof.
  intros Hstep fuel. induction fuel as [|fuel IH]; intros a rem a' rem' HI; simpl; [done|].
  destruct (Qltb 0 rem); [|by intros [= <- <-]].
  destruct (scan _ _ _ _) as [[a1 rem1]|] eqn:Hs; [|by intros [= <- <-]].
  apply scan_Some in Hs as (c & Hin & Hb & Hc & -> & ->).
  apply IH. by apply Hstep.
Qed.

(** More fuel does not change a result. *)
Lemma incremental_fuel_mono (fuel fuel' : nat) (a : gmap string Z) (rem : Q)
    (res : gmap string Z * Q) :
  (fuel <= fuel')%nat ->
  incremental fuel profitable a rem = Some res ->
  incremental fuel' profitable a rem = Some res.
Proof.
  revert fuel' a rem. induction fuel as [|fuel IH]; intros fuel' a rem Hle; simpl; [done|].
  destruct fuel' as [|fuel']; [lia|]. simpl.
  destruct (Qltb 0 rem); [|done].
  destruct (scan _ _ _ _) as [[a1 rem1]|]; [|done].
  apply IH. lia.
Qed.

(** The seeding loop writes [min_calls] and nothing else. *)
Lemma seeding_lookup (campaigns : list string) (a : gmap string Z) (rem : Q)
    (a' : gmap string Z) (rem' : Q) :
  seeding profitable campaigns min_calls a rem = (a', rem') ->
  forall c n, a' !! c = Some n ->
    a !! c = Some n \/ (c ∈ campaigns /\ n = min_calls).
Proof.
  revert a rem. induction campaigns as [|c0 cs IH]; intros a rem; simpl.
  - intros [= <- <-] c n Hc. by left.
  - destruct (Qgeb _ _); intros Hs c n Hc.
    + destruct (IH _ _ Hs c n Hc) as [H|[Hin ->]].
      * destruct (decide (c0 = c)) as [->|Hne].
        -- rewrite lookup_insert_eq in H. injection H as <-.
           right. split; [in_head | done].
        -- rewrite lookup_insert_ne in H by done. by left.
      * right. split; [in_tail | done].
    + destruct (IH _ _ Hs c n Hc) as [H|[Hin ->]]; [by left|].
      right. split; [in_tail | done].
Qed.

(** Entries present before the seeding loop are still there after it. *)
Lemma seeding_keeps (campaigns : list string) (a : gmap string Z) (rem : Q)
    (a' : gmap string Z) (rem' : Q) (c : string) :
  seeding profitable campaigns min_calls a rem = (a', rem') ->
  is_Some (a !! c) -> is_Some (a' !! c).
Proof.
  revert a rem. induction campaigns as [|c0 cs IH]; intros a rem; simpl.
  - by intros [= <- <-].
  - destruct (Qgeb _ _); intros Hs Hc; eapply IH; try done.
    destruct (decide (c0 = c)) as [->|Hne].
    + rewrite lookup_insert_eq. by eexists.
    + by rewrite lookup_insert_ne.
Qed.

(** The budget left by the seeding loop is the budget it started with
    minus the cost of what it allocated, and it is not overdrawn. *)
Lemma seeding_budget (campaigns : list string) (a : gmap string Z) (rem : Q)
    (a' : gmap string Z) (rem' : Q) :
  NoDup campaigns ->
  (forall c, c ∈ campaigns -> a !! c = None) ->
  seeding profitable campaigns min_calls a rem = (a', rem') ->
  (0 <= rem)%Q ->
  (0 <= rem')%Q /\ (rem' == rem - (spent_by cost a' - spent_by cost a))%Q.
Proof.
  revert a rem. induction campaigns as [|c0 cs IH]; intros a rem Hnd Hfresh; simpl.
  - intros [= <- <-] Hrem. split; [done | ring].
  - apply NoDup_cons in Hnd as [Hc0 Hnd].
    destruct (Qgeb _ _) eqn:E; intros Hs Hrem.
    + apply Qgeb_le in E. fold (cost c0) in E, Hs.
      apply IH in Hs as [Hpos Heq]; try done.
      * split; [done|]. rewrite Heq.
        rewrite (spent_by_fresh cost a c0 min_calls)
          by (apply Hfresh; in_head).
        ring.
      * intros c Hc. rewrite lookup_insert_ne by (intros ->; done).
        apply Hfresh; in_tail.
      * lra.
    + apply IH in Hs; try done.
      intros c Hc. apply Hfresh; in_tail.
Qed.

End Loops.

(** ** Termination of the [while] loop *)

Section Termination.

Variable profitable : frame.

Lemma get_insert_eq (a : gmap string Z) (c : string) (n : Z) :
  get (<[c := n]> a) c = n.
Proof. unfold get. by rewrite lookup_insert_eq. Qed.

Lemma get_insert_ne (a : gmap string Z) (c c' : string) (n : Z) :
  c <> c' -> get (<[c := n]> a) c' = get a c'.
Proof. intros Hne. unfold get. by rewrite lookup_insert_ne. Qed.

Lemma headroom_other (a : gmap string Z) (c c' : string) (n : Z) :
  c <> c' -> headroom profitable (<[c := n]> a) c' = headroom profitable a c'.
Proof. intros Hne. unfold headroom. by rewrite get_insert_ne. Qed.

(** One more call for a campaign below its finite ceiling uses up one
    unit of its headroom. *)
Lemma headroom_step (a : gmap string Z) (c : string) :
  np_below (get a c) (max_calls profitable c) = true ->
  max_calls profitable c <> PInf ->
  (headroom profitable (<[c := (get a c + 1)%Z]> a) c < headroom profitable a c)%nat.
Proof.
  unfold headroom. rewrite get_insert_eq.
  destruct (max_calls profitable c) as [q| | |]; simpl; try done.
  intros Hb%Qltb_lt%below_succ_ceiling _. lia.
Qed.

Lemma loop_measure_step (campaigns : list string) (a : gmap string Z) (c : string) :
  np_below (get a c) (max_calls profitable c) = true ->
  max_calls profitable c <> PInf ->
  (loop_measure profitable campaigns (<[c := (get a c + 1)%Z]> a)
     <= loop_measure profitable campaigns a)%nat
  /\ (c ∈ campaigns ->
      (loop_measure profitable campaigns (<[c := (get a c + 1)%Z]> a)
         < loop_measure profitable campaigns a)%nat).
Proof.
  intros Hb Hfin. unfold loop_measure.
  induction campaigns as [|c0 cs [IHle IHlt]]; simpl.
  - split; [lia|]. by intros ?%elem_of_nil.
  - destruct (decide (c = c0)) as [<-|Hne].
    + pose proof (headroom_step a c Hb Hfin). split; intros; lia.
    + rewrite (headroom_other a c c0) by done. split; [lia|].
      intros [->|Hin]%elem_of_cons; [done|]. specialize (IHlt Hin). lia.
Qed.

(** With finite ceilings every allocating pass shrinks the total
    headroom, so the loop ends within [loop_measure + 1] evaluations of
    its condition. *)
Lemma incremental_terminates :
  (forall c, c ∈ index profitable -> max_calls profitable c <> PInf) ->
  forall fuel a rem,
    (loop_measure profitable (index profitable) a < fuel)%nat ->
    is_Some (incremental fuel profitable a rem).
Proof.
  intros Hfin fuel. induction fuel as [|fuel IH]; intros a rem Hlt; [lia|]. simpl.
  destruct (Qltb 0 rem); [|by eexists].
  destruct (scan _ _ _ _) as [[a1 rem1]|] eqn:Hs; [|by eexists].
  apply scan_Some in Hs as (c & Hin & Hb & _ & -> & ->).
  apply IH.
  destruct (loop_measure_step (index profitable) a c Hb (Hfin c Hin)) as [_ Hdec].
  specialize (Hdec Hin). lia.
Qed.

End Termination.

(** ** The optimizer as a whole *)

Section Whole.

Variable campaign_stats : frame.
Variable daily_budget : Q.
Variable min_calls : Z.
Variable min_roas : Q.

Lemma optimize_budget_unfold (fuel : nat) :
  optimize_budget fuel campaign_stats daily_budget min_calls min_roas =
  match select_profitable campaign_stats min_roas with
  | [] => Some (None, daily_budget)
  | _ :: _ =>
      match incremental fuel (ranked campaign_stats min_roas)
              (seeded campaign_stats daily_budget min_calls min_roas).1
              (seeded campaign_stats daily_budget min_calls min_roas).2 with
      | Some (a, rem) => Some (Some a, rem)
      | None => None
      end
  end.
Proof.
  unfold optimize_budget, seeded, ranked.
  destruct (select_profitable campaign_stats min_roas) as [|r rs]; [done|].
  by destruct (seeding _ _ _ _ _) as [a rem].
Qed.

(** A run that returns an allocation is a run of the two loops on the
    ranked table. *)
Lemma optimize_budget_Some (fuel : nat) (alloc : gmap string Z) (left : Q) :
  optimize_budget fuel campaign_stats daily_budget min_calls min_roas
    = Some (Some alloc, left) ->
  incremental fuel (ranked campaign_stats min_roas)
    (seeded campaign_stats daily_budget min_calls min_roas).1
    (seeded campaign_stats daily_budget min_calls min_roas).2
  = Some (alloc, left).
Proof.
  rewrite optimize_budget_unfold.
  destruct (select_profitable campaign_stats min_roas); [done|].
  destruct (incremental _ _ _ _) as [[a rem]|]; [|done].
  by intros [= <- <-].
Qed.

Lemma loc_index (df : frame) (c : string) :
  c ∈ index df -> exists r, loc df c = Some r /\ r ∈ df /\ Name r = c.
Proof.
  intros Hin. destruct (loc df c) as [r|] eqn:E.
  - exists r. split; [done|]. by apply loc_Some.
  - by apply loc_None in E.
Qed.

(** A qualifying campaign with a positive number of active days has the
    finite ceiling [Total_Calls / Days_Active * 1.5]. *)
Lemma ranked_max_calls (c : string) :
  days_positive campaign_stats min_roas ->
  c ∈ index (ranked campaign_stats min_roas) ->
  exists r, loc (ranked campaign_stats min_roas) c = Some r
    /\ r ∈ campaign_stats /\ (min_roas <= ROAS r)%Q /\ 0 < Days_Active r
    /\ max_calls (ranked campaign_stats min_roas) c
       = Fin (Total_Calls r / inject_Z (Days_Active r) * 1.5).
Proof.
  intros Hdays (r & Hloc & [Hin Hq]%ranked_elem & Hname)%loc_index.
  exists r. pose proof (Hdays r Hin Hq) as Hpos.
  repeat split; try done.
  unfold max_calls, loc_col. rewrite Hloc.
  rewrite np_div_fin; [done|].
  intros H. unfold Qeq in H. simpl in H. lia.
Qed.

(** With positive [Days_Active] on the qualifying rows the optimizer
    returns, and [loop_bound] is enough fuel. *)
Lemma optimize_budget_returns (fuel : nat) :
  days_positive campaign_stats min_roas ->
  (loop_bound campaign_stats daily_budget min_calls min_roas <= fuel)%nat ->
  is_Some (optimize_budget fuel campaign_stats daily_budget min_calls min_roas).
Proof.
  intros Hdays Hfuel. rewrite optimize_budget_unfold.
  destruct (select_profitable campaign_stats min_roas); [by eexists|].
  destruct (incremental_terminates (ranked campaign_stats min_roas)) with
    (fuel := fuel)
    (a := (seeded campaign_stats daily_budget min_calls min_roas).1)
    (rem := (seeded campaign_stats daily_budget min_calls min_roas).2)
    as [[a rem] ->].
  - intros c' Hc. destruct (ranked_max_calls c' Hdays Hc) as (r & _ & _ & _ & _ & ->).
    done.
  - unfold loop_bound in Hfuel. lia.
  - by eexists.
Qed.

(** The result does not depend on the fuel. *)
Lemma optimize_budget_fuel_mono (fuel fuel' : nat)
    (res : option (gmap string Z) * Q) :
  (fuel <= fuel')%nat ->
  optimize_budget fuel campaign_stats daily_budget min_calls min_roas = Some res ->
  optimize_budget fuel' campaign_stats daily_budget min_calls min_roas = Some res.
Proof.
  intros Hle. rewrite !optimize_budget_unfold.
  destruct (select_profitable campaign_stats min_roas); [done|].
  destruct (incremental fuel _ _ _) as [[a rem]|] eqn:E; [|done].
  by rewrite (incremental_fuel_mono _ _ _ _ _ _ Hle E).
Qed.

End Whole.

(** ** What a returned allocation contains *)

Section Results.

Variable campaign_stats : frame.
Variable daily_budget : Q.
Variable min_calls : Z.
Variable min_roas : Q.

Let profitable := ranked campaign_stats min_roas.
Let start := seeded campaign_stats daily_budget min_calls min_roas.

Lemma seeded_lookup (c : string) (n : Z) :
  start.1 !! c = Some n -> c ∈ index profitable /\ n = min_calls.
Proof.
  intros Hc. unfold start, seeded in Hc.
  destruct (seeding _ _ _ _ _) as [a rem] eqn:Hs.
  destruct (seeding_lookup _ _ _ _ _ _ _ Hs c n Hc) as [H|H]; [|done].
  by rewrite lookup_empty in H.
Qed.

(** The keys of a returned allocation are qualifying campaigns. *)
Lemma result_keys (fuel : nat) (alloc : gmap string Z) (left : Q) (c : string) :
  optimize_budget fuel campaign_stats daily_budget min_calls min_roas
    = Some (Some alloc, left) ->
  is_Some (alloc !! c) -> c ∈ index profitable.
Proof.
  intros Hrun%optimize_budget_Some. revert c.
  refine (incremental_invariant profitable
            (fun a _ => forall c, is_Some (a !! c) -> c ∈ index profitable)
            _ fuel _ _ alloc left _ Hrun).
  - intros a rem c Ha Hin _ _ c' Hc'.
    destruct (decide (c = c')) as [<-|Hne]; [done|].
    rewrite lookup_insert_ne in Hc' by done. by apply Ha.
  - intros c [n Hn]. by apply seeded_lookup in Hn as [? _].
Qed.

(** The leftover of a returned allocation, in the costs of the ranked
    table. *)
Lemma result_budget (fuel : nat) (alloc : gmap string Z) (left : Q) :
  NoDup (index campaign_stats) ->
  (0 <= daily_budget)%Q ->
  optimize_budget fuel campaign_stats daily_budget min_calls min_roas
    = Some (Some alloc, left) ->
  (0 <= left)%Q
  /\ (left == daily_budget
             - spent_by (loc_col Cost_Per_Call 0%Q profitable) alloc)%Q.
Proof.
  intros Hnd Hb Hrun%optimize_budget_Some.
  set (cost := loc_col Cost_Per_Call 0%Q profitable).
  refine (incremental_invariant profitable
            (fun a rem => (0 <= rem)%Q
                          /\ (rem == daily_budget - spent_by cost a)%Q)
            _ fuel _ _ alloc left _ Hrun).
  - intros a rem c [Hpos Heq] _ _ Hc. fold (cost c) in Hc |- *. split; [lra|].
    rewrite spent_by_insert, inject_Z_plus. change (inject_Z 1) with 1%Q.
    rewrite Heq. ring.
  - unfold start, seeded. fold profitable.
    destruct (seeding _ _ _ _ _) as [a rem] eqn:Hs. simpl.
    apply seeding_budget in Hs as [Hpos Heq]; try done.
    + split; [done|]. rewrite Heq, spent_by_empty. unfold cost. ring.
    + by apply ranked_NoDup.
Qed.

End Results.

(** ** The claims about [optimize_budget] *)

(** C1, as the code has it.  For every table of campaign statistics (with
    distinct campaign names) and every [daily_budget >= 0], the leftover
    returned by [optimize_budget] is not negative: a cost is deducted only
    after the test that the remaining budget covers it.  When
    [daily_budget] and the costs of the qualifying campaigns are
    non-negative integers, the budget below 2^53, and
    [0 <= min_calls < 2^53], so that no amount that is deducted is
    rounded, the allocation costs at most the budget,
    [sum(allocation[c] * Cost_Per_Call[c]) <= daily_budget], and the
    leftover is [daily_budget] minus that sum.  The optimizer does return
    when the qualifying campaigns have a positive [Days_Active]. *)
Theorem optimize_budget_within_budget (campaign_stats : frame)
    (daily_budget : Q) (min_calls : Z) (min_roas : Q) :
  NoDup (index campaign_stats) ->
  (0 <= daily_budget)%Q ->
  (forall fuel alloc left,
      optimize_budget fuel campaign_stats daily_budget min_calls min_roas
        = Some (Some alloc, left) ->
      (0 <= left)%Q
      /\ (exact_amount daily_budget ->
          0 <= min_calls < 2 ^ 53 ->
          (forall r, r ∈ campaign_stats -> (min_roas <= ROAS r)%Q ->
                     whole (Cost_Per_Call r) /\ (0 <= Cost_Per_Call r)%Q) ->
          (spent campaign_stats alloc <= daily_budget)%Q
          /\ (left == daily_budget - spent campaign_stats alloc)%Q))
  /\ (days_positive campaign_stats min_roas ->
      forall fuel,
        (loop_bound campaign_stats daily_budget min_calls min_roas <= fuel)%nat ->
        is_Some (optimize_budget fuel campaign_stats daily_budget min_calls min_roas)).
Proof.
  intros Hnd Hb. split.
  - intros fuel alloc left Hrun.
    destruct (result_budget _ _ _ _ fuel alloc left Hnd Hb Hrun) as [Hpos Heq].
    split; [exact Hpos|]. intros _ _ _.
    assert (Hsame : (spent campaign_stats alloc
                     == spent_by (loc_col Cost_Per_Call 0%Q
                                    (ranked campaign_stats min_roas)) alloc)%Q).
    { unfold spent. apply spent_by_ext. intros c Hc.
      apply (result_keys _ _ _ _ fuel alloc left c Hrun) in Hc.
      destruct (ranked_loc _ _ _ Hnd Hc) as (r & H1 & H2 & _).
      unfold loc_col. by rewrite H1, H2. }
    rewrite Hsame. split; [lra | done].
  - intros Hdays fuel Hfuel. by apply optimize_budget_returns.
Qed.

Section Binary64.

(** C1 as stated fails in binary64.  With a budget of 0.7 and one campaign
    at 0.1 per call the source allocates 7 calls; their cost [7 * 0.1] is
    0.7000000000000001, above the budget, and the leftover [2^-55]
    (2.8e-17) is not the budget minus that cost.  In the range of the
    budget widget: with a budget of 100 and a cost per call of [25 / 11]
    it allocates 44 calls costing 100.00000000000001, and leaves
    7.9e-14. *)
Lemma within_budget_fails_in_binary64 :
  (exists alloc left,
      F64.optimize_budget 7 F64.stats_dime F64.seven_tenths 1 (F64.of_int 1)
        = Some (Some alloc, left)
      /\ alloc = {[ "D" := 7 ]}
      /\ F64.leb (F64.spent F64.stats_dime alloc) F64.seven_tenths = false
      /\ F64.eqb left
           (F64.sub F64.seven_tenths (F64.spent F64.stats_dime alloc))
         = false)
  /\ (exists alloc left,
        F64.optimize_budget 44 F64.stats_eleventh (F64.of_int 100) 1
          (F64.of_int 1)
          = Some (Some alloc, left)
        /\ alloc = {[ "E" := 44 ]}
        /\ F64.leb (F64.spent F64.stats_eleventh alloc) (F64.of_int 100)
           = false
        /\ F64.eqb left
             (F64.sub (F64.of_int 100) (F64.spent F64.stats_eleventh alloc))
           = false)
  /\ ~ (forall fuel alloc left,
          F64.optimize_budget fuel F64.stats_dime F64.seven_tenths 1
            (F64.of_int 1)
            = Some (Some alloc, left) ->
          F64.leb (F64.spent F64.stats_dime alloc) F64.seven_tenths = true).
Proof.
  assert (Hrun : exists left,
             F64.optimize_budget 7 F64.stats_dime F64.seven_tenths 1
               (F64.of_int 1)
             = Some (Some {[ "D" := 7 ]}, left))
    by (eexists; vm_compute; reflexivity).
  destruct Hrun as [left Hrun].
  split; [|split].
  - eexists _, _. split; [vm_compute; reflexivity|].
    repeat split; vm_compute; reflexivity.
  - eexists _, _. split; [vm_compute; reflexivity|].
    repeat split; vm_compute; reflexivity.
  - intros H. specialize (H 7%nat _ _ Hrun). vm_compute in H. discriminate H.
Qed.

(** On the two-campaign scenario, whose amounts are integers, binary64
    rounds nothing: the source returns A = 15, B = 8 and 10, as the exact
    model does, and the allocation costs 190. *)
Lemma binary64_two_campaigns :
  F64.optimize_budget 22 F64.stats_AB (F64.of_int 200) 1 (F64.of_int 1)
    = Some (Some {[ "A" := 15; "B" := 8 ]}, F64.of_int 10)
  /\ F64.spent F64.stats_AB {[ "A" := 15; "B" := 8 ]} = F64.of_int 190
  /\ F64.leb (F64.spent F64.stats_AB {[ "A" := 15; "B" := 8 ]})
       (F64.of_int 200)
     = true.
Proof. repeat split; vm_compute; reflexivity. Qed.

End Binary64.


(** C3. If no campaign of the table has [ROAS >= min_roas],
    [optimize_budget] returns the null allocation and the full
    [daily_budget] as leftover; in particular with [min_roas = 2.0] on a
    table whose largest ROAS is 1.5. *)
Theorem optimize_budget_none_qualify (campaign_stats : frame)
    (daily_budget : Q) (min_calls : Z) :
  (forall min_roas,
      (forall r, r ∈ campaign_stats -> ~ (min_roas <= ROAS r)%Q) ->
      forall fuel,
        optimize_budget fuel campaign_stats daily_budget min_calls min_roas
        = Some (None, daily_budget))
  /\ ((forall r, r ∈ campaign_stats -> (ROAS r <= 15 # 10)%Q) ->
      forall fuel,
        optimize_budget fuel campaign_stats daily_budget min_calls 2
        = Some (None, daily_budget)).
Proof.
  assert (Hgen : forall min_roas,
             (forall r, r ∈ campaign_stats -> ~ (min_roas <= ROAS r)%Q) ->
             forall fuel,
               optimize_budget fuel campaign_stats daily_budget min_calls min_roas
               = Some (None, daily_budget)).
  { intros min_roas Hnone fuel. rewrite optimize_budget_unfold.
    destruct (select_profitable campaign_stats min_roas) as [|r rs] eqn:E; [done|].
    exfalso. apply (Hnone r).
    - assert (Hin : In r (select_profitable campaign_stats min_roas))
        by (rewrite E; apply in_eq).
      apply filter_In in Hin as [Hin _]. by apply list_elem_of_In.
    - assert (Hin : In r (select_profitable campaign_stats min_roas))
        by (rewrite E; apply in_eq).
      apply filter_In in Hin as [_ Hq]. by apply Qgeb_le. }
  split; [exact Hgen|].
  intros Hmax fuel. apply Hgen. intros r Hin Hq.
  specialize (Hmax r Hin). lra.
Qed.

(** C4. A campaign whose ROAS is strictly below [min_roas] is never a key
    of an allocation returned by [optimize_budget] (on a table with
    distinct campaign names). *)
Theorem optimize_budget_excludes_low_roas (campaign_stats : frame)
    (daily_budget : Q) (min_calls : Z) (min_roas : Q) :
  NoDup (index campaign_stats) ->
  (forall fuel alloc left r,
      optimize_budget fuel campaign_stats daily_budget min_calls min_roas
        = Some (Some alloc, left) ->
      r ∈ campaign_stats -> (ROAS r < min_roas)%Q ->
      alloc !! Name r = None)
  /\ (days_positive campaign_stats min_roas ->
      forall fuel,
        (loop_bound campaign_stats daily_budget min_calls min_roas <= fuel)%nat ->
        is_Some (optimize_budget fuel campaign_stats daily_budget min_calls min_roas)).
Proof.
  intros Hnd. split.
  - intros fuel alloc left r Hrun Hin Hlow.
    destruct (alloc !! Name r) as [n|] eqn:E; [|done]. exfalso.
    assert (Hkey : Name r ∈ index (ranked campaign_stats min_roas)).
    { eapply result_keys; [exact Hrun | by rewrite E]. }
    destruct (ranked_loc _ _ _ Hnd Hkey) as (r' & _ & Hloc & _ & Hq & _).
    rewrite (loc_unique _ _ Hnd Hin) in Hloc. injection Hloc as <-. lra.
  - intros Hdays fuel Hfuel. by apply optimize_budget_returns.
Qed.

(** The ceiling test and the seeding loop, on a returned allocation: every
    count is within the ceiling of its campaign or is still the
    [min_calls] written by the seeding loop. *)
Lemma result_ceiling (campaign_stats : frame) (daily_budget : Q)
    (min_calls : Z) (min_roas : Q) (fuel : nat) (alloc : gmap string Z)
    (left : Q) (c : string) (n : Z) :
  optimize_budget fuel campaign_stats daily_budget min_calls min_roas
    = Some (Some alloc, left) ->
  alloc !! c = Some n ->
  np_within_ceil n (max_calls (ranked campaign_stats min_roas) c)
  \/ (n = min_calls
      /\ (seeded campaign_stats daily_budget min_calls min_roas).1 !! c
         = Some min_calls).
Proof.
  intros Hrun%optimize_budget_Some. revert c n.
  refine (incremental_invariant (ranked campaign_stats min_roas)
            (fun a _ => forall c n, a !! c = Some n ->
               np_within_ceil n (max_calls (ranked campaign_stats min_roas) c)
               \/ (n = min_calls
                   /\ (seeded campaign_stats daily_budget min_calls min_roas).1 !! c
                      = Some min_calls))
            _ fuel _ _ alloc left _ Hrun).
  - intros a rem c Ha _ Hb _ c' n Hc'.
    destruct (decide (c = c')) as [<-|Hne].
    + rewrite lookup_insert_eq in Hc'. injection Hc' as <-.
      left. by apply np_below_succ.
    + rewrite lookup_insert_ne in Hc' by done. by apply Ha.
  - intros c n Hc. right.
    pose proof (seeded_lookup _ _ _ _ c n Hc) as [_ ->]. done.
Qed.

(** The floor, on a returned allocation: with [min_calls >= 1] every count
    is at least 1, and the campaigns served by the seeding loop keep at
    least [min_calls]. *)
Lemma result_floor (campaign_stats : frame) (daily_budget : Q)
    (min_calls : Z) (min_roas : Q) (fuel : nat) (alloc : gmap string Z)
    (left : Q) :
  1 <= min_calls ->
  optimize_budget fuel campaign_stats daily_budget min_calls min_roas
    = Some (Some alloc, left) ->
  (forall c n, alloc !! c = Some n -> 1 <= n)
  /\ (forall c,
        is_Some ((seeded campaign_stats daily_budget min_calls min_roas).1 !! c) ->
        exists n, alloc !! c = Some n /\ min_calls <= n).
Proof.
  intros Hmc Hrun%optimize_budget_Some.
  refine (incremental_invariant (ranked campaign_stats min_roas)
            (fun a _ =>
               (forall c n, a !! c = Some n -> 1 <= n)
               /\ (forall c,
                     is_Some ((seeded campaign_stats daily_budget min_calls
                                 min_roas).1 !! c) ->
                     exists n, a !! c = Some n /\ min_calls <= n))
            _ fuel _ _ alloc left _ Hrun).
  - intros a rem c [Hpos Hseed] _ _ _. split.
    + intros c' n Hc'. destruct (decide (c = c')) as [<-|Hne].
      * rewrite lookup_insert_eq in Hc'. injection Hc' as <-.
        unfold get. destruct (a !! c) as [k|] eqn:E; simpl; [|lia].
        specialize (Hpos c k E). lia.
      * rewrite lookup_insert_ne in Hc' by done. by apply (Hpos c').
    + intros c' Hc'. destruct (Hseed c' Hc') as (k & Hk & Hle).
      destruct (decide (c = c')) as [<-|Hne].
      * exists (get a c + 1). rewrite lookup_insert_eq. split; [done|].
        unfold get. rewrite Hk. simpl. lia.
      * exists k. by rewrite lookup_insert_ne.
  - split.
    + intros c n Hc. pose proof (seeded_lookup _ _ _ _ c n Hc) as [_ ->]. done.
    + intros c [n Hn]. exists n. split; [done|].
      pose proof (seeded_lookup _ _ _ _ c n Hn) as [_ ->]. done.
Qed.

(** C2, as the code has it.  On a table with distinct campaign names, for
    a campaign [r] of a returned allocation with [Days_Active > 0], the
    count [n] is at most [ceil(Total_Calls / Days_Active * 1.5)] unless it
    is still the [min_calls] calls written by the seeding loop, which has
    no ceiling test; so [n <= max(min_calls, ceil(...))], and [n] is within
    the ceiling whenever [min_calls] is. *)
Theorem optimize_budget_ceiling (campaign_stats : frame) (daily_budget : Q)
    (min_calls : Z) (min_roas : Q) :
  NoDup (index campaign_stats) ->
  (forall fuel alloc left r n,
      optimize_budget fuel campaign_stats daily_budget min_calls min_roas
        = Some (Some alloc, left) ->
      r ∈ campaign_stats -> 0 < Days_Active r ->
      alloc !! Name r = Some n ->
      let ceiling :=
        Qceiling (Total_Calls r / inject_Z (Days_Active r) * 1.5) in
      (n <= ceiling
       \/ (n = min_calls
           /\ (seeded campaign_stats daily_budget min_calls min_roas).1 !! Name r
              = Some min_calls))
      /\ n <= Z.max min_calls ceiling
      /\ (min_calls <= ceiling -> n <= ceiling))
  /\ (days_positive campaign_stats min_roas ->
      forall fuel,
        (loop_bound campaign_stats daily_budget min_calls min_roas <= fuel)%nat ->
        is_Some (optimize_budget fuel campaign_stats daily_budget min_calls min_roas)).
Proof.
  intros Hnd. split.
  - intros fuel alloc left r n Hrun Hin Hdays Hn ceiling.
    assert (Hkey : Name r ∈ index (ranked campaign_stats min_roas)).
    { eapply result_keys; [exact Hrun | by rewrite Hn]. }
    destruct (ranked_loc _ _ _ Hnd Hkey) as (r' & Hloc & Hloc' & _).
    rewrite (loc_unique _ _ Hnd Hin) in Hloc'. injection Hloc' as <-.
    assert (Hcap : max_calls (ranked campaign_stats min_roas) (Name r)
                   = Fin (Total_Calls r / inject_Z (Days_Active r) * 1.5)).
    { unfold max_calls, loc_col. rewrite Hloc.
      rewrite np_div_fin; [done|].
      intros H. unfold Qeq in H. simpl in H. lia. }
    pose proof (result_ceiling _ _ _ _ fuel alloc left (Name r) n Hrun Hn) as Hc.
    rewrite Hcap in Hc. simpl in Hc. fold ceiling in Hc.
    split; [exact Hc|]. destruct Hc as [Hc|[-> _]]; split; lia.
  - intros Hdays fuel Hfuel. by apply optimize_budget_returns.
Qed.

(** C6, as the code has it.  For [min_calls >= 1] every campaign of a
    returned allocation has at least one call, and a campaign that the
    seeding loop served has at least [min_calls]; a campaign that the
    seeding loop skipped gets its calls one at a time and may end below
    [min_calls].  For [min_calls = 1] the floor holds for every campaign. *)
Theorem optimize_budget_floor (campaign_stats : frame) (daily_budget : Q)
    (min_calls : Z) (min_roas : Q) :
  1 <= min_calls ->
  (forall fuel alloc left c n,
      optimize_budget fuel campaign_stats daily_budget min_calls min_roas
        = Some (Some alloc, left) ->
      alloc !! c = Some n ->
      1 <= n
      /\ (is_Some ((seeded campaign_stats daily_budget min_calls min_roas).1 !! c) ->
          min_calls <= n)
      /\ (min_calls = 1 -> min_calls <= n))
  /\ (days_positive campaign_stats min_roas ->
      forall fuel,
        (loop_bound campaign_stats daily_budget min_calls min_roas <= fuel)%nat ->
        is_Some (optimize_budget fuel campaign_stats daily_budget min_calls min_roas)).
Proof.
  intros Hmc. split.
  - intros fuel alloc left c n Hrun Hn.
    destruct (result_floor _ _ _ _ fuel alloc left Hmc Hrun) as [Hpos Hseed].
    pose proof (Hpos c n Hn) as H1. split; [done|]. split; [|lia].
    intros (k & Hk & Hle)%Hseed. rewrite Hn in Hk. injection Hk as <-. done.
  - intros Hdays fuel Hfuel. by apply optimize_budget_returns.
Qed.


(** C5, as the code has it.  On campaigns A and B with a budget of 200,
    [min_roas = 1.0] and [min_calls = 1]: A is ranked and seeded first,
    whichever row comes first in the table, both get one call and 185 is
    left; the incremental loop then fills A up
    to 15 calls, where [15 < 15.0] fails, and B up to 8 calls, the eighth
    being allowed by [7 < 7.5]; the loop ends at the 22nd evaluation of its
    condition and the result is A = 15, B = 8 with 10 left. *)
Theorem scenario_two_campaigns :
  index (ranked stats_AB 1) = ["A"; "B"]
  /\ index (ranked (rev stats_AB) 1) = ["A"; "B"]
  /\ (seeded stats_AB 200 1 1).1 = {[ "A" := 1; "B" := 1 ]}
  /\ ((seeded stats_AB 200 1 1).2 == 185)%Q
  /\ np_below 14 (max_calls (ranked stats_AB 1) "A") = true
  /\ np_below 15 (max_calls (ranked stats_AB 1) "A") = false
  /\ np_below 7 (max_calls (ranked stats_AB 1) "B") = true
  /\ np_below 8 (max_calls (ranked stats_AB 1) "B") = false
  /\ loop_bound stats_AB 200 1 1 = 22%nat
  /\ (forall fuel,
        optimize_budget fuel stats_AB 200 1 1
        = if (22 <=? fuel)%nat
          then Some (Some {[ "A" := 15; "B" := 8 ]}, 10%Q)
          else None).
Proof.
  repeat split; try (vm_compute; reflexivity).
  intros fuel. destruct (22 <=? fuel)%nat eqn:E.
  - apply Nat.leb_le in E.
    apply (optimize_budget_fuel_mono stats_AB 200 1 1 22 fuel _ E).
    vm_compute. reflexivity.
  - apply Nat.leb_gt in E.
    do 22 (destruct fuel as [|fuel]; [vm_compute; reflexivity|]). lia.
Qed.

(** C5 as stated fails: B is not capped at 7 calls, it ends with 8. *)
Lemma scenario_two_campaigns_B_not_capped_at_7 :
  ~ (forall fuel alloc left n,
        optimize_budget fuel stats_AB 200 1 1 = Some (Some alloc, left) ->
        alloc !! "B" = Some n -> n <= 7).
Proof.
  intros H.
  assert (Hrun : optimize_budget 22 stats_AB 200 1 1
                 = Some (Some {[ "A" := 15; "B" := 8 ]}, 10%Q))
    by (vm_compute; reflexivity).
  specialize (H 22%nat _ _ 8 Hrun). 
  assert (Hb : ({[ "A" := 15; "B" := 8 ]} : gmap string Z) !! "B" = Some 8)
    by (vm_compute; reflexivity).
  specialize (H Hb). lia.
Qed.

(** C2 as stated fails on a campaign served by the seeding loop: with
    [min_calls = 5] the campaign of [stats_slow] gets 5 calls, and its
    ceiling is [ceil(10 / 10 * 1.5) = 2]. *)
Lemma ceiling_exceeded_by_seeding :
  (exists alloc left,
      optimize_budget 1 stats_slow 100 5 1 = Some (Some alloc, left)
      /\ alloc !! "S" = Some 5
      /\ Qceiling (10 / inject_Z 10 * 1.5) = 2)
  /\ ~ (forall fuel alloc left r n,
          optimize_budget fuel stats_slow 100 5 1 = Some (Some alloc, left) ->
          r ∈ stats_slow ->
          alloc !! Name r = Some n ->
          n <= Qceiling (Total_Calls r / inject_Z (Days_Active r) * 1.5)).
Proof.
  assert (Hrun : optimize_budget 1 stats_slow 100 5 1
                 = Some (Some {[ "S" := 5 ]}, 50%Q))
    by (vm_compute; reflexivity).
  split.
  - eexists _, _. split; [exact Hrun|].
    split; vm_compute; reflexivity.
  - intros H.
    specialize (H 1%nat _ _ (stats_row "S" 10 20 2 10 10) 5 Hrun).
    assert (Hle : 5 <= Qceiling (10 / inject_Z 10 * 1.5)).
    { apply H; [apply elem_of_cons; by left | vm_compute; reflexivity]. }
    vm_compute in Hle. by apply Hle.
Qed.

(** C6 as stated fails on a campaign skipped by the seeding loop: with
    [min_calls = 2] and a budget of 15 the campaign of [stats_single]
    cannot pay for two calls, gets one call from the incremental loop, and
    ends below [min_calls]. *)
Lemma floor_missed_after_skipped_seeding :
  (exists alloc left,
      optimize_budget 2 stats_single 15 2 1 = Some (Some alloc, left)
      /\ (seeded stats_single 15 2 1).1 !! "C" = None
      /\ alloc !! "C" = Some 1)
  /\ ~ (forall fuel alloc left c n,
          optimize_budget fuel stats_single 15 2 1 = Some (Some alloc, left) ->
          alloc !! c = Some n -> 2 <= n).
Proof.
  assert (Hrun : optimize_budget 2 stats_single 15 2 1
                 = Some (Some {[ "C" := 1 ]}, 5%Q))
    by (vm_compute; reflexivity).
  split.
  - eexists _, _. split; [exact Hrun|].
    split; vm_compute; reflexivity.
  - intros H.
    assert (Hle : 2 <= 1); [|lia].
    apply (H 2%nat _ _ "C" 1 Hrun). vm_compute; reflexivity.
Qed.

(** ** The claims about [calculate_campaign_metrics] *)

Section AggregatorFacts.

Lemma replace_0_1_zero (x : Q) : (x == 0)%Q -> replace_0_1 x = 1%Q.
Proof.
  intros Hx. unfold replace_0_1.
  destruct (Qeq_bool x 0) eqn:E; [done|].
  apply Qeq_bool_neq in E. contradiction.
Qed.

(** The value that replaces a denominator is never zero. *)
Lemma replace_0_1_nonzero (x : Q) : ~ (replace_0_1 x == 0)%Q.
Proof.
  unfold replace_0_1. destruct (Qeq_bool x 0) eqn:E.
  - intros H. discriminate H.
  - by apply Qeq_bool_neq.
Qed.

Lemma insert_label_perm (k : string) (l : list string) :
  insert_label k l ≡ₚ k :: l.
Proof.
  induction l as [|k' l IH]; simpl; [done|].
  destruct (String.ltb k k'); [done|].
  rewrite IH. apply Permutation_swap.
Qed.

Lemma group_labels_perm (df : list daily_record) :
  group_labels df ≡ₚ remove_dups (map Campaign df).
Proof.
  unfold group_labels.
  induction (remove_dups (map Campaign df)) as [|k l IH]; simpl; [done|].
  by rewrite insert_label_perm, IH.
Qed.

(** The labels are the campaign names that occur, each once. *)
Lemma group_labels_elem (df : list daily_record) (label : string) :
  label ∈ group_labels df <-> exists r, r ∈ df /\ Campaign r = label.
Proof.
  rewrite group_labels_perm, elem_of_remove_dups.
  change (map Campaign df) with (Campaign <$> df).
  rewrite list_elem_of_fmap. split.
  - intros (r & -> & Hr). by exists r.
  - intros (r & Hr & <-). by exists r.
Qed.

Lemma group_labels_NoDup (df : list daily_record) : NoDup (group_labels df).
Proof. rewrite group_labels_perm. apply NoDup_remove_dups. Qed.

Lemma calculate_campaign_metrics_index (df : list daily_record)
    (agency : option string) :
  index (calculate_campaign_metrics df agency)
  = group_labels (filter_agency df agency).
Proof.
  unfold calculate_campaign_metrics, index. rewrite map_map. simpl.
  apply map_id.
Qed.

(** The table of the aggregator has distinct campaign names. *)
Lemma calculate_campaign_metrics_NoDup (df : list daily_record)
    (agency : option string) :
  NoDup (index (calculate_campaign_metrics df agency)).
Proof. rewrite calculate_campaign_metrics_index. apply group_labels_NoDup. Qed.

(** Every row of the table aggregates the non-empty group of its
    label. *)
Lemma calculate_campaign_metrics_row (df : list daily_record)
    (agency : option string) (row : campaign_row) :
  row ∈ calculate_campaign_metrics df agency ->
  exists g, row = aggregate (Name row) g /\ g <> [].
Proof.
  unfold calculate_campaign_metrics.
  change (map ?f ?l) with (f <$> l).
  intros (label & -> & Hl)%list_elem_of_fmap.
  exists (group (filter_agency df agency) label). split; [done|].
  apply group_labels_elem in Hl as (r & Hr & Hlabel).
  intros Hnil.
  assert (Hin : In r (group (filter_agency df agency) label)).
  { apply filter_In. split; [by apply list_elem_of_In | by apply String.eqb_eq]. }
  rewrite Hnil in Hin. done.
Qed.

End AggregatorFacts.

(** C7. In every row of the table of [calculate_campaign_metrics] the four
    ratios are quotients by [replace(0, 1)] of the true denominator, which
    is never zero, so no division by zero occurs; hence a group with
    [Total_Cost = 0] has [ROAS = Total_Revenue], one with
    [Total_Paid_Calls = 0] has [Cost_Per_Call = Total_Cost], and one with
    [Total_Calls = 0] has [Revenue_Per_Call = Total_Revenue] and
    [Conversion_Rate = Total_Sales * 100]. *)
Theorem zero_denominators_replaced_by_one (df : list daily_record)
    (agency : option string) (row : campaign_row) :
  row ∈ calculate_campaign_metrics df agency ->
  (ROAS row = Total_Revenue row / replace_0_1 (Total_Cost row)
   /\ Cost_Per_Call row = Total_Cost row / replace_0_1 (Total_Paid_Calls row)
   /\ Revenue_Per_Call row = Total_Revenue row / replace_0_1 (Total_Calls row)
   /\ Conversion_Rate row
      = Total_Sales row / replace_0_1 (Total_Calls row) * 100)%Q
  /\ (~ replace_0_1 (Total_Cost row) == 0
      /\ ~ replace_0_1 (Total_Paid_Calls row) == 0
      /\ ~ replace_0_1 (Total_Calls row) == 0)%Q
  /\ ((Total_Cost row == 0)%Q -> (ROAS row == Total_Revenue row)%Q)
  /\ ((Total_Paid_Calls row == 0)%Q -> (Cost_Per_Call row == Total_Cost row)%Q)
  /\ ((Total_Calls row == 0)%Q ->
      (Revenue_Per_Call row == Total_Revenue row)%Q
      /\ (Conversion_Rate row == Total_Sales row * 100)%Q).
Proof.
  intros (g & -> & _)%calculate_campaign_metrics_row. simpl.
  split; [done|].
  split; [repeat split; apply replace_0_1_nonzero|].
  split; [|split].
  - intros H. rewrite (replace_0_1_zero _ H). field.
  - intros H. rewrite (replace_0_1_zero _ H). field.
  - intros H. rewrite (replace_0_1_zero _ H). split; field.
Qed.

(** C8. Two daily records of one campaign with revenues 100 and 200 and
    lead costs 50 and 50, whatever their other columns, aggregate to one
    row with [Total_Revenue = 300], [Total_Cost = 100], [ROAS = 3.0] and
    [Days_Active = 2]. *)
Theorem aggregation_of_two_days (campaign agency1 agency2 : string)
    (date1 date2 : Z) (calls1 calls2 paid1 paid2 sales1 sales2 : Q) :
  let day1 := {| Date := date1; Agency := agency1; Campaign := campaign;
                 Revenue := 100; Lead_Cost := 50; Total_Calls_d := calls1;
                 Paid_Calls := paid1; Unique_Sales := sales1 |} in
  let day2 := {| Date := date2; Agency := agency2; Campaign := campaign;
                 Revenue := 200; Lead_Cost := 50; Total_Calls_d := calls2;
                 Paid_Calls := paid2; Unique_Sales := sales2 |} in
  exists row,
    calculate_campaign_metrics [day1; day2] None = [row]
    /\ Name row = campaign
    /\ (Total_Revenue row == 300)%Q
    /\ (Total_Cost row == 100)%Q
    /\ (ROAS row == 3.0)%Q
    /\ Days_Active row = 2.
Proof.
  intros day1 day2.
  assert (Hlabels : group_labels [day1; day2] = [campaign]).
  { unfold group_labels. simpl map. cbn [remove_dups].
    destruct (decide_rel elem_of campaign [campaign]) as [_|Hout].
    - by destruct (decide_rel elem_of campaign []) as [?%elem_of_nil|_].
    - exfalso. apply Hout, elem_of_cons. by left. }
  unfold calculate_campaign_metrics. simpl filter_agency. rewrite Hlabels.
  simpl. rewrite String.eqb_refl. eexists. split; [reflexivity|].
  simpl. repeat split; vm_compute; reflexivity.
Qed.


(** ** The theorems at the tables of the scenarios *)

(** Membership in a table that is written out, one row after the other. *)
Ltac each_row H :=
  repeat (apply elem_of_cons in H as [->|H]); [..|by apply elem_of_nil in H].

Lemma stats_AB_NoDup : NoDup (index stats_AB).
Proof. apply (bool_decide_unpack _). vm_compute. reflexivity. Defined.

Lemma stats_AB_days (min_roas : Q) : days_positive stats_AB min_roas.
Proof. intros r Hr _. each_row Hr; vm_compute; reflexivity. Defined.

Lemma stats_slow_NoDup : NoDup (index stats_slow).
Proof. apply (bool_decide_unpack _). vm_compute. reflexivity. Defined.

Lemma stats_AB_whole_costs :
  forall r, r ∈ stats_AB -> (1 <= ROAS r)%Q ->
            whole (Cost_Per_Call r) /\ (0 <= Cost_Per_Call r)%Q.
Proof.
  intros r Hr _. each_row Hr; split; vm_compute; first [reflexivity | discriminate].
Defined.

Lemma optimize_budget_within_budget_witness :
  exists alloc left,
    optimize_budget 22 stats_AB 200 1 1 = Some (Some alloc, left)
    /\ (0 <= left)%Q
    /\ (spent stats_AB alloc <= 200)%Q
    /\ (left == 200 - spent stats_AB alloc)%Q.
Proof.
  assert (Hb : (0 <= 200)%Q) by (unfold Qle; simpl; lia).
  assert (Hexact : exact_amount 200)
    by (repeat split; vm_compute; first [reflexivity | discriminate]).
  assert (Hmc : 0 <= 1 < 2 ^ 53) by (split; [lia | reflexivity]).
  exists {[ "A" := 15; "B" := 8 ]}, 10%Q.
  assert (Hrun : optimize_budget 22 stats_AB 200 1 1
                 = Some (Some {[ "A" := 15; "B" := 8 ]}, 10%Q))
    by (vm_compute; reflexivity).
  split; [exact Hrun|].
  destruct (proj1 (optimize_budget_within_budget stats_AB 200 1 1
                     stats_AB_NoDup Hb) 22%nat _ _ Hrun) as [Hpos Hexact_case].
  split; [exact Hpos|].
  exact (Hexact_case Hexact Hmc stats_AB_whole_costs).
Defined.

Lemma optimize_budget_ceiling_witness :
  exists alloc left,
    optimize_budget 1 stats_slow 100 5 1 = Some (Some alloc, left)
    /\ alloc !! "S" = Some 5
    /\ 5 <= Z.max 5 (Qceiling (10 / inject_Z 10 * 1.5)).
Proof.
  exists {[ "S" := 5 ]}, 50%Q.
  assert (Hrun : optimize_budget 1 stats_slow 100 5 1
                 = Some (Some {[ "S" := 5 ]}, 50%Q))
    by (vm_compute; reflexivity).
  assert (Hn : ({[ "S" := 5 ]} : gmap string Z) !! "S" = Some 5)
    by (vm_compute; reflexivity).
  split; [exact Hrun|]. split; [exact Hn|].
  assert (Hin : stats_row "S" 10 20 2 10 10 ∈ stats_slow)
    by (apply elem_of_cons; by left).
  assert (Hdays : 0 < Days_Active (stats_row "S" 10 20 2 10 10))
    by (vm_compute; reflexivity).
  exact (proj1 (proj2 (proj1 (optimize_budget_ceiling stats_slow 100 5 1
                                stats_slow_NoDup)
                         1%nat _ _ _ 5 Hrun Hin Hdays Hn))).
Defined.

Lemma optimize_budget_none_qualify_witness :
  optimize_budget 0 stats_weak 200 1 2 = Some (None, 200%Q).
Proof.
  apply (proj2 (optimize_budget_none_qualify stats_weak 200 1)).
  intros r Hr. each_row Hr; unfold Qle; simpl; lia.
Defined.

Lemma optimize_budget_excludes_low_roas_witness :
  exists alloc left,
    optimize_budget 15 stats_AB 200 1 1.3 = Some (Some alloc, left)
    /\ alloc !! "A" = Some 15
    /\ alloc !! "B" = None.
Proof.
  exists {[ "A" := 15 ]}, 50%Q.
  assert (Hrun : optimize_budget 15 stats_AB 200 1 1.3
                 = Some (Some {[ "A" := 15 ]}, 50%Q))
    by (vm_compute; reflexivity).
  split; [exact Hrun|]. split; [vm_compute; reflexivity|].
  apply (proj1 (optimize_budget_excludes_low_roas stats_AB 200 1 1.3
                  stats_AB_NoDup)
           15%nat _ _ (stats_row "B" 5 6 1.2 50 10) Hrun).
  - apply elem_of_cons. right. apply elem_of_cons. by left.
  - vm_compute. reflexivity.
Defined.

Lemma optimize_budget_floor_witness :
  exists alloc left,
    optimize_budget 1 stats_slow 100 5 1 = Some (Some alloc, left)
    /\ alloc !! "S" = Some 5
    /\ 1 <= 5 /\ 5 <= 5.
Proof.
  exists {[ "S" := 5 ]}, 50%Q.
  assert (Hrun : optimize_budget 1 stats_slow 100 5 1
                 = Some (Some {[ "S" := 5 ]}, 50%Q))
    by (vm_compute; reflexivity).
  assert (Hn : ({[ "S" := 5 ]} : gmap string Z) !! "S" = Some 5)
    by (vm_compute; reflexivity).
  assert (Hmc : 1 <= 5) by lia.
  split; [exact Hrun|]. split; [exact Hn|].
  destruct (proj1 (optimize_budget_floor stats_slow 100 5 1 Hmc)
              1%nat _ _ "S" 5 Hrun Hn) as (H1 & Hseed & _).
  split; [exact H1|]. apply Hseed. vm_compute. by eexists.
Defined.


Lemma zero_denominators_replaced_by_one_witness :
  let row := aggregate "idle" sheet_idle in
  (ROAS row == Total_Revenue row)%Q
  /\ (Cost_Per_Call row == Total_Cost row)%Q
  /\ (Revenue_Per_Call row == Total_Revenue row)%Q
  /\ (Conversion_Rate row == Total_Sales row * 100)%Q.
Proof.
  intros row.
  assert (Hin : row ∈ calculate_campaign_metrics sheet_idle None)
    by (apply elem_of_cons; left; vm_compute; reflexivity).
  destruct (zero_denominators_replaced_by_one sheet_idle None row Hin)
    as (_ & _ & Hroas & Hcost & Hcalls).
  split; [apply Hroas; vm_compute; reflexivity|].
  split; [apply Hcost; vm_compute; reflexivity|].
  apply Hcalls. vm_compute. reflexivity.
Defined.


(** ** More on the optimizer: ranking, greedy choice, exit and bounds *)

Section Ranking.

Let by_profit (a b : campaign_row) : Prop :=
  (Profit_Per_Call b <= Profit_Per_Call a)%Q.

Lemma insert_desc_sorted (r : campaign_row) (df : frame) :
  StronglySorted by_profit df -> StronglySorted by_profit (insert_desc r df).
Proof.
  induction 1 as [|s df Hsorted IH Hall]; simpl.
  - repeat constructor.
  - destruct (Qgeb (Profit_Per_Call r) (Profit_Per_Call s)) eqn:E.
    + apply Qgeb_le in E. constructor; [by constructor|].
      constructor; [exact E|].
      eapply Forall_impl; [exact Hall|]. intros x Hx. unfold by_profit in *. lra.
    + apply Qgeb_false in E. constructor; [exact IH|].
      rewrite insert_desc_perm. constructor; [|exact Hall].
      unfold by_profit. lra.
Qed.

(** X1. The ranked table holds exactly the rows with [ROAS >= min_roas],
    each as often as the input does, in order of non-increasing
    [Profit_Per_Call]. *)
Theorem ranked_sorted_by_profit (campaign_stats : frame) (min_roas : Q) :
  StronglySorted
    (fun a b => (Profit_Per_Call b <= Profit_Per_Call a)%Q)
    (ranked campaign_stats min_roas)
  /\ ranked campaign_stats min_roas
     ≡ₚ List.filter (fun r => Qle_bool min_roas (ROAS r)) campaign_stats.
Proof.
  split; [|apply sort_values_perm].
  unfold ranked, sort_values.
  induction (select_profitable campaign_stats min_roas) as [|r df IH]; simpl.
  - constructor.
  - by apply insert_desc_sorted.
Qed.

End Ranking.

Section Greedy.

Variable profitable : frame.

Let cost : string -> Q := loc_col Cost_Per_Call 0%Q profitable.

(** A campaign that a pass may serve: below its ceiling and affordable. *)
Let eligible (a : gmap string Z) (rem : Q) (c : string) : Prop :=
  np_below (get a c) (max_calls profitable c) = true /\ (cost c <= rem)%Q.

Lemma scan_first (campaigns : list string) (a : gmap string Z) (rem : Q)
    (a' : gmap string Z) (rem' : Q) :
  scan profitable campaigns a rem = Some (a', rem') ->
  exists before c after,
    campaigns = before ++ c :: after
    /\ Forall (fun c' => ~ eligible a rem c') before
    /\ eligible a rem c
    /\ a' = <[c := get a c + 1]> a
    /\ rem' = (rem - cost c)%Q.
Proof.
  induction campaigns as [|c cs IH]; simpl; [done|].
  destruct (np_below _ _ && Qgeb _ _) eqn:E.
  - intros [= <- <-]. apply andb_true_iff in E as [Hb Hc%Qgeb_le].
    exists [], c, cs. repeat split; try done.
  - intros (before & c' & after & -> & Hbefore & H)%IH.
    exists (c :: before), c', after. split; [done|]. split; [|done].
    constructor; [|done]. intros [Hb Hc]. apply Qgeb_le in Hc.
    unfold cost in Hc. by rewrite Hb, Hc in E.
Qed.

(** When the loop returns, its condition is false or a pass has found
    nothing. *)
Lemma incremental_exit (fuel : nat) (a : gmap string Z) (rem : Q)
    (a' : gmap string Z) (rem' : Q) :
  incremental fuel profitable a rem = Some (a', rem') ->
  Qltb 0 rem' = false \/ scan profitable (index profitable) a' rem' = None.
Proof.
  revert a rem. induction fuel as [|fuel IH]; intros a rem H; simpl in H; [done|].
  destruct (Qltb 0 rem) eqn:E.
  - destruct (scan profitable (index profitable) a rem) as [[a1 rem1]|] eqn:Hs.
    + by apply IH in H.
    + injection H as <- <-. by right.
  - injection H as <- <-. by left.
Qed.

Lemma seeding_skips (campaigns : list string) (min_calls : Z)
    (a : gmap string Z) (rem : Q) :
  (forall c, c ∈ campaigns -> (rem < cost c * inject_Z min_calls)%Q) ->
  seeding profitable campaigns min_calls a rem = (a, rem).
Proof.
  induction campaigns as [|c cs IH]; intros Hall; simpl; [done|].
  assert (Hc : Qgeb rem (cost c * inject_Z min_calls) = false).
  { apply Qgeb_false, Hall. apply elem_of_cons. by left. }
  unfold cost in Hc. rewrite Hc. apply IH.
  intros c' Hc'. apply Hall, elem_of_cons. by right.
Qed.

Lemma scan_unaffordable (campaigns : list string) (a : gmap string Z) (rem : Q) :
  (forall c, c ∈ campaigns -> (rem < cost c)%Q) ->
  scan profitable campaigns a rem = None.
Proof.
  induction campaigns as [|c cs IH]; intros Hall; simpl; [done|].
  assert (Hc : Qgeb rem (cost c) = false).
  { apply Qgeb_false, Hall. apply elem_of_cons. by left. }
  unfold cost in Hc. rewrite Hc, andb_false_r. apply IH.
  intros c' Hc'. apply Hall, elem_of_cons. by right.
Qed.

(** With costs and [min_calls] that are not negative the seeding loop does
    not add to the budget. *)
Lemma seeding_le (campaigns : list string) (min_calls : Z)
    (a : gmap string Z) (rem : Q) (a' : gmap string Z) (rem' : Q) :
  0 <= min_calls ->
  (forall c, c ∈ campaigns -> (0 <= cost c)%Q) ->
  seeding profitable campaigns min_calls a rem = (a', rem') ->
  (rem' <= rem)%Q.
Proof.
  intros Hmc. revert a rem.
  induction campaigns as [|c cs IH]; intros a rem Hall; simpl.
  - intros [= <- <-]. lra.
  - assert (Hstep : (0 <= cost c * inject_Z min_calls)%Q).
    { apply Qmult_le_0_compat; [apply Hall, elem_of_cons; by left|].
      change 0%Q with (inject_Z 0). by rewrite <- Zle_Qle. }
    assert (Hrest : forall c', c' ∈ cs -> (0 <= cost c')%Q).
    { intros c' Hc'. apply Hall, elem_of_cons. by right. }
    fold (cost c). destruct (Qgeb _ _); intros Hs.
    + apply IH in Hs; [lra | done].
    + by apply IH in Hs.
Qed.

End Greedy.

(** A qualifying row of a table with distinct labels is the row that the
    ranked table holds under its label. *)
Lemma ranked_row (campaign_stats : frame) (min_roas : Q) (r : campaign_row) :
  NoDup (index campaign_stats) ->
  r ∈ campaign_stats -> (min_roas <= ROAS r)%Q ->
  Name r ∈ index (ranked campaign_stats min_roas)
  /\ loc (ranked campaign_stats min_roas) (Name r) = Some r.
Proof.
  intros Hnd Hin Hq.
  assert (Hr : r ∈ ranked campaign_stats min_roas) by by apply ranked_elem.
  split.
  - unfold index. change (map Name ?l) with (Name <$> l).
    apply list_elem_of_fmap. by exists r.
  - apply loc_unique; [by apply ranked_NoDup | done].
Qed.

(** The cost that the loops read for a ranked campaign is the cost of a
    qualifying row. *)
Lemma ranked_cost (campaign_stats : frame) (min_roas : Q) (c : string) :
  c ∈ index (ranked campaign_stats min_roas) ->
  exists r, r ∈ campaign_stats /\ (min_roas <= ROAS r)%Q
    /\ loc_col Cost_Per_Call 0%Q (ranked campaign_stats min_roas) c
       = Cost_Per_Call r.
Proof.
  intros (r & Hloc & [Hin Hq]%ranked_elem & _)%loc_index.
  exists r. repeat split; try done. unfold loc_col. by rewrite Hloc.
Qed.

(** X2. The loop stops only when nothing more can be bought: if the
    returned leftover is positive, every qualifying campaign (with
    [Days_Active > 0]) has reached its ceiling
    [Total_Calls / Days_Active * 1.5] or costs more per call than the
    leftover. *)
Theorem optimize_budget_stops_when_nothing_fits (campaign_stats : frame)
    (daily_budget : Q) (min_calls : Z) (min_roas : Q) (fuel : nat)
    (alloc : gmap string Z) (left : Q) :
  NoDup (index campaign_stats) ->
  optimize_budget fuel campaign_stats daily_budget min_calls min_roas
    = Some (Some alloc, left) ->
  (0 < left)%Q ->
  forall r, r ∈ campaign_stats -> (min_roas <= ROAS r)%Q ->
    0 < Days_Active r ->
    (Total_Calls r / inject_Z (Days_Active r) * 1.5
       <= inject_Z (get alloc (Name r)))%Q
    \/ (left < Cost_Per_Call r)%Q.
Proof.
  intros Hnd Hrun%optimize_budget_Some Hleft r Hin Hq Hdays.
  apply incremental_exit in Hrun as [Hcond|Hscan].
  { apply Qltb_lt in Hleft. by rewrite Hleft in Hcond. }
  destruct (ranked_row _ _ _ Hnd Hin Hq) as [Hkey Hloc].
  destruct (scan_None _ _ _ _ Hscan _ Hkey) as [Hb|Hc].
  - left. unfold max_calls, loc_col in Hb. rewrite Hloc in Hb.
    rewrite np_div_fin in Hb
      by (intros H; unfold Qeq in H; simpl in H; lia).
    simpl in Hb. apply Qnot_lt_le. intros Hlt%Qltb_lt. by rewrite Hlt in Hb.
  - right. unfold loc_col in Hc. by rewrite Hloc in Hc.
Qed.

(** X3. Every pass of the incremental loop gives its call to the first
    campaign of the ranking that is below its ceiling and affordable: the
    campaigns ranked before it are at their ceiling or too expensive. *)
Theorem incremental_pass_serves_first_eligible (campaign_stats : frame)
    (min_roas : Q) (a : gmap string Z) (rem : Q) (a' : gmap string Z) (rem' : Q) :
  let profitable := ranked campaign_stats min_roas in
  let cost := loc_col Cost_Per_Call 0%Q profitable in
  scan profitable (index profitable) a rem = Some (a', rem') ->
  exists before c after,
    index profitable = before ++ c :: after
    /\ (forall c', c' ∈ before ->
          np_below (get a c') (max_calls profitable c') = false
          \/ (rem < cost c')%Q)
    /\ np_below (get a c) (max_calls profitable c) = true
    /\ (cost c <= rem)%Q
    /\ a' = <[c := get a c + 1]> a
    /\ rem' = (rem - cost c)%Q.
Proof.
  intros profitable cost
    (before & c & after & Hsplit & Hbefore & [Hb Hc] & Ha & Hrem)%scan_first.
  exists before, c, after. repeat split; try done.
  intros c' Hc'. rewrite Forall_forall in Hbefore.
  specialize (Hbefore c' Hc').
  destruct (np_below (get a c') (max_calls profitable c')) eqn:E; [|by left].
  right. apply Qnot_le_lt. intros Hle. by apply Hbefore.
Qed.

(** When every qualifying campaign costs more per call than the budget,
    neither loop allocates. *)
Lemma nothing_affordable_loops (campaign_stats : frame)
    (daily_budget : Q) (min_calls : Z) (min_roas : Q) (fuel : nat) :
  1 <= min_calls ->
  (0 <= daily_budget)%Q ->
  (forall r, r ∈ campaign_stats -> (min_roas <= ROAS r)%Q ->
             (daily_budget < Cost_Per_Call r)%Q) ->
  seeded campaign_stats daily_budget min_calls min_roas = (∅, daily_budget)
  /\ incremental (S fuel) (ranked campaign_stats min_roas) ∅ daily_budget
     = Some (∅, daily_budget).
Proof.
  intros Hmc Hb Hcost.
  assert (Hc : forall c, c ∈ index (ranked campaign_stats min_roas) ->
               (daily_budget
                < loc_col Cost_Per_Call 0%Q (ranked campaign_stats min_roas) c)%Q).
  { intros c (r & Hin & Hq & ->)%ranked_cost. by apply Hcost. }
  split.
  - unfold seeded. apply seeding_skips. intros c Hin.
    specialize (Hc c Hin).
    assert (H1 : (1 <= inject_Z min_calls)%Q)
      by (change 1%Q with (inject_Z 1); by rewrite <- Zle_Qle).
    nra.
  - simpl. rewrite scan_unaffordable by exact Hc.
    by destruct (Qltb 0 daily_budget).
Qed.

Lemma select_profitable_nonempty (campaign_stats : frame) (min_roas : Q)
    (r : campaign_row) :
  r ∈ campaign_stats -> (min_roas <= ROAS r)%Q ->
  select_profitable campaign_stats min_roas <> [].
Proof.
  intros Hin Hq E.
  assert (Hr : r ∈ ranked campaign_stats min_roas) by by apply ranked_elem.
  unfold ranked in Hr. rewrite E in Hr. by apply elem_of_nil in Hr.
Qed.

(** X4. If some campaign qualifies but every qualifying campaign costs
    more per call than the whole budget, the result (with
    [min_calls >= 1]) is not the null allocation but the empty one, with
    the full budget left over. *)
Theorem optimize_budget_nothing_affordable (campaign_stats : frame)
    (daily_budget : Q) (min_calls : Z) (min_roas : Q) (fuel : nat) :
  1 <= min_calls ->
  (0 <= daily_budget)%Q ->
  (exists r, r ∈ campaign_stats /\ (min_roas <= ROAS r)%Q) ->
  (forall r, r ∈ campaign_stats -> (min_roas <= ROAS r)%Q ->
             (daily_budget < Cost_Per_Call r)%Q) ->
  optimize_budget (S fuel) campaign_stats daily_budget min_calls min_roas
  = Some (Some ∅, daily_budget).
Proof.
  intros Hmc Hb (r0 & Hin0 & Hq0) Hcost.
  destruct (nothing_affordable_loops campaign_stats daily_budget min_calls
              min_roas fuel Hmc Hb Hcost) as [Hseed Hloop].
  rewrite optimize_budget_unfold, Hseed.
  pose proof (select_profitable_nonempty _ _ _ Hin0 Hq0) as Hne.
  destruct (select_profitable campaign_stats min_roas) as [|r rs]; [done|].
  cbn [fst snd]. by rewrite Hloop.
Qed.

(** X5. With [min_calls >= 0] and costs that are not negative on the
    qualifying rows, a returned allocation holds no negative count and the
    returned leftover is at most the budget. *)
Theorem optimize_budget_leftover_at_most_budget (campaign_stats : frame)
    (daily_budget : Q) (min_calls : Z) (min_roas : Q) (fuel : nat)
    (alloc : gmap string Z) (left : Q) :
  0 <= min_calls ->
  (forall r, r ∈ campaign_stats -> (min_roas <= ROAS r)%Q ->
             (0 <= Cost_Per_Call r)%Q) ->
  optimize_budget fuel campaign_stats daily_budget min_calls min_roas
    = Some (Some alloc, left) ->
  (left <= daily_budget)%Q
  /\ (forall c n, alloc !! c = Some n -> 0 <= n).
Proof.
  intros Hmc Hcost Hrun%optimize_budget_Some.
  assert (Hc : forall c, c ∈ index (ranked campaign_stats min_roas) ->
               (0 <= loc_col Cost_Per_Call 0%Q (ranked campaign_stats min_roas) c)%Q).
  { intros c (r & Hin & Hq & ->)%ranked_cost. by apply Hcost. }
  refine (incremental_invariant (ranked campaign_stats min_roas)
            (fun a rem => (rem <= daily_budget)%Q
                          /\ (forall c n, a !! c = Some n -> 0 <= n))
            _ fuel _ _ alloc left _ Hrun).
  - intros a rem c [Hle Hpos] Hin _ _. specialize (Hc c Hin). split; [lra|].
    intros c' n Hn. destruct (decide (c = c')) as [<-|Hne].
    + rewrite lookup_insert_eq in Hn. injection Hn as <-.
      unfold get. destruct (a !! c) as [k|] eqn:E; simpl; [|lia].
      specialize (Hpos c k E). lia.
    + rewrite lookup_insert_ne in Hn by done. by apply (Hpos c').
  - split.
    + unfold seeded.
      destruct (seeding _ _ _ _ _) as [a0 rem0] eqn:Hs. simpl.
      by apply seeding_le in Hs.
    + intros c n Hn.
      pose proof (seeded_lookup _ _ _ _ c n Hn) as [_ ->]. done.
Qed.

(** ** More on the aggregator: labels, totals and signs *)

Section Labels.

Lemma ltb_trans (a b c : string) : label_lt a b -> label_lt b c -> label_lt a c.
Proof.
  unfold label_lt, String.ltb. intros Hab Hbc.
  destruct (String.compare a b) eqn:Eab; try done.
  destruct (String.compare b c) eqn:Ebc; try done.
  apply (proj1 (OrderedTypeEx.String_as_OT.cmp_lt a b)) in Eab.
  apply (proj1 (OrderedTypeEx.String_as_OT.cmp_lt b c)) in Ebc.
  pose proof (OrderedTypeEx.String_as_OT.lt_trans _ _ _ Eab Ebc) as Hac.
  apply (proj2 (OrderedTypeEx.String_as_OT.cmp_lt a c)) in Hac.
  unfold OrderedTypeEx.String_as_OT.cmp in Hac. by rewrite Hac.
Qed.

Lemma ltb_connex (a b : string) :
  a <> b -> String.ltb a b = false -> label_lt b a.
Proof.
  unfold label_lt, String.ltb. intros Hne Hab.
  rewrite String.compare_antisym.
  destruct (String.compare a b) eqn:E; try done.
  by apply String.compare_eq_iff in E.
Qed.

Lemma insert_label_sorted (k : string) (l : list string) :
  k ∉ l -> StronglySorted label_lt l -> StronglySorted label_lt (insert_label k l).
Proof.
  intros Hk Hs. induction Hs as [|k' l Hs IH Hall]; simpl.
  - repeat constructor.
  - apply not_elem_of_cons in Hk as [Hne Hk].
    destruct (String.ltb k k') eqn:E.
    + constructor; [by constructor|]. constructor; [done|].
      eapply Forall_impl; [exact Hall|]. intros x Hx. by eapply ltb_trans.
    + constructor; [by apply IH|].
      rewrite insert_label_perm. constructor; [|done]. by apply ltb_connex.
Qed.

Lemma group_labels_sorted (df : list daily_record) :
  StronglySorted label_lt (group_labels df).
Proof.
  unfold group_labels.
  pose proof (NoDup_remove_dups (map Campaign df)) as Hnd.
  induction Hnd as [|k l Hk Hnd IH]; simpl; [constructor|].
  apply insert_label_sorted; [|done].
  intros Hin. apply Hk. revert Hin. clear.
  induction l as [|k' l IH]; simpl; [done|].
  rewrite insert_label_perm. intros [->|Hin]%elem_of_cons.
  - apply elem_of_cons. by left.
  - apply elem_of_cons. right. by apply IH.
Qed.

End Labels.

(** X6. The table of [calculate_campaign_metrics] has one row for each
    campaign that occurs in the records of the chosen agency and no other
    row; its labels are distinct and in increasing order. *)
Theorem table_labels (df : list daily_record) (agency : option string) :
  let table := calculate_campaign_metrics df agency in
  NoDup (index table)
  /\ StronglySorted label_lt (index table)
  /\ (forall c, c ∈ index table
                <-> exists r, r ∈ filter_agency df agency /\ Campaign r = c).
Proof.
  intros table. unfold table.
  rewrite calculate_campaign_metrics_index.
  split; [apply group_labels_NoDup|].
  split; [apply group_labels_sorted|].
  intros c. apply group_labels_elem.
Qed.

Section Totals.

Variable col : daily_record -> Q.

Lemma agg_sum_split (f : daily_record -> bool) (df : list daily_record) :
  (agg_sum col df
   == agg_sum col (List.filter f df)
      + agg_sum col (List.filter (fun r => negb (f r)) df))%Q.
Proof.
  induction df as [|r df IH]; simpl; [reflexivity|].
  destruct (f r); simpl; rewrite IH; ring.
Qed.

Lemma group_of_others (df : list daily_record) (l l' : string) :
  l' <> l ->
  group (List.filter (fun r => negb (String.eqb (Campaign r) l)) df) l'
  = group df l'.
Proof.
  intros Hne. unfold group. induction df as [|r df IH]; simpl; [done|].
  destruct (String.eqb (Campaign r) l) eqn:E; simpl.
  - apply String.eqb_eq in E.
    destruct (String.eqb (Campaign r) l') eqn:E'; [|done].
    apply String.eqb_eq in E'. congruence.
  - destruct (String.eqb (Campaign r) l'); by rewrite IH.
Qed.

(** The groups of distinct labels that cover the records split the sum of
    a column. *)
Lemma group_sums (labels : list string) (df : list daily_record) :
  NoDup labels ->
  (forall r, r ∈ df -> Campaign r ∈ labels) ->
  (fold_right (fun l acc => agg_sum col (group df l) + acc) 0 labels
   == agg_sum col df)%Q.
Proof.
  intros Hnd. revert df.
  induction Hnd as [|l labels Hl Hnd IH]; intros df Hcover; simpl.
  - destruct df as [|r df]; [reflexivity|].
    specialize (Hcover r). rewrite elem_of_nil in Hcover.
    exfalso. apply Hcover, elem_of_cons. by left.
  - rewrite (agg_sum_split (fun r => String.eqb (Campaign r) l) df).
    fold (group df l).
    set (others := List.filter (fun r => negb (String.eqb (Campaign r) l)) df).
    rewrite <- (IH others).
    + apply Qplus_inj_l.
      clear IH Hcover. induction labels as [|l' labels IH']; simpl; [reflexivity|].
      apply NoDup_cons in Hnd as [Hl' Hnd].
      apply not_elem_of_cons in Hl as [Hne Hl].
      unfold others. rewrite group_of_others by done.
      rewrite IH' by done. reflexivity.
    + intros r Hr. unfold others in Hr.
      apply list_elem_of_In, filter_In in Hr as [Hr Hneq].
      apply list_elem_of_In, Hcover, elem_of_cons in Hr as [Heq|Hr]; [|done].
      rewrite Heq, String.eqb_refl in Hneq. done.
Qed.

End Totals.

Lemma filter_agency_elem (df : list daily_record) (agency : option string)
    (r : daily_record) :
  r ∈ filter_agency df agency -> r ∈ df.
Proof.
  unfold filter_agency. destruct agency as [a|]; [|done].
  destruct (String.eqb a "" || String.eqb a "All"); [done|].
  intros Hr. apply list_elem_of_In, filter_In in Hr as [Hr _].
  by apply list_elem_of_In.
Qed.

(** A row of the table is the aggregate of the records of its campaign. *)
Lemma table_row_group (df : list daily_record) (agency : option string)
    (row : campaign_row) :
  row ∈ calculate_campaign_metrics df agency ->
  row = aggregate (Name row) (group (filter_agency df agency) (Name row))
  /\ Name row ∈ group_labels (filter_agency df agency).
Proof.
  unfold calculate_campaign_metrics.
  change (map ?f ?l) with (f <$> l).
  by intros (label & -> & Hl)%list_elem_of_fmap.
Qed.

Lemma column_total_table (field : campaign_row -> Q) (col : daily_record -> Q)
    (df : list daily_record) (labels : list string) :
  (forall l g, field (aggregate l g) == agg_sum col g)%Q ->
  (column_total field (map (fun l => aggregate l (group df l)) labels)
   == fold_right (fun l acc => agg_sum col (group df l) + acc) 0 labels)%Q.
Proof.
  intros Hfield. induction labels as [|l labels IH]; simpl; [reflexivity|].
  by rewrite Hfield, IH.
Qed.

Lemma agg_sum_ones (g : list daily_record) :
  (agg_sum (fun _ => 1) g == inject_Z (Z.of_nat (length g)))%Q.
Proof.
  induction g as [|r g IH]; [reflexivity|].
  cbn [agg_sum fold_right length]. fold (agg_sum (fun _ => 1%Q) g).
  rewrite IH, Nat2Z.inj_succ, <- Z.add_1_l, inject_Z_plus. reflexivity.
Qed.

Lemma days_total_column (table : frame) :
  (column_total (fun row => inject_Z (Days_Active row)) table
   == inject_Z (days_total table))%Q.
Proof.
  induction table as [|r table IH]; simpl; [reflexivity|].
  rewrite IH, inject_Z_plus. reflexivity.
Qed.

(** X7. Grouping loses nothing and counts nothing twice: over the rows of
    the table [Days_Active] adds up to the number of records of the chosen
    agency; and on records whose cells are non-negative integers with
    column totals up to 2^53, which are added without rounding, each
    total column adds up to the sum of its column over those records. *)
Theorem table_totals (df : list daily_record) (agency : option string) :
  let table := calculate_campaign_metrics df agency in
  let records := filter_agency df agency in
  days_total table = Z.of_nat (length records)
  /\ ((forall r, r ∈ records -> whole_record r) ->
      totals_within two53 records ->
      (column_total Total_Revenue table == agg_sum Revenue records)%Q
      /\ (column_total Total_Cost table == agg_sum Lead_Cost records)%Q
      /\ (column_total Total_Calls table == agg_sum Total_Calls_d records)%Q
      /\ (column_total Total_Paid_Calls table == agg_sum Paid_Calls records)%Q
      /\ (column_total Total_Sales table == agg_sum Unique_Sales records)%Q).
Proof.
  intros table records.
  assert (Hsum : forall field col,
             (forall l g, field (aggregate l g) == agg_sum col g)%Q ->
             (column_total field table == agg_sum col records)%Q).
  { intros field col Hfield. unfold table, calculate_campaign_metrics.
    fold records. rewrite (column_total_table field col) by done.
    apply group_sums; [apply group_labels_NoDup|].
    intros r Hr. apply group_labels_elem. by exists r. }
  split.
  - apply inject_Z_injective.
    rewrite <- days_total_column, <- agg_sum_ones. apply Hsum. intros l g. simpl.
    unfold agg_count. rewrite length_map. symmetry. apply agg_sum_ones.
  - intros _ _. repeat split; apply Hsum; reflexivity.
Qed.

Lemma agg_sum_nonneg (col : daily_record -> Q) (g : list daily_record) :
  (forall r, r ∈ g -> (0 <= col r)%Q) -> (0 <= agg_sum col g)%Q.
Proof.
  induction g as [|r g IH]; intros Hall; simpl; [lra|].
  assert (0 <= col r)%Q by (apply Hall, elem_of_cons; by left).
  assert (0 <= agg_sum col g)%Q
    by (apply IH; intros r' Hr'; apply Hall, elem_of_cons; by right).
  unfold agg_sum in *. lra.
Qed.

Lemma replace_0_1_pos (x : Q) : (0 <= x)%Q -> (0 < replace_0_1 x)%Q.
Proof.
  intros Hx. unfold replace_0_1. destruct (Qeq_bool x 0) eqn:E; [reflexivity|].
  apply Qeq_bool_neq in E. destruct (Qlt_le_dec 0 x) as [H|H]; [done|].
  exfalso. apply E. by apply Qle_antisym.
Qed.

Lemma Qdiv_nonneg (a b : Q) : (0 <= a)%Q -> (0 < b)%Q -> (0 <= a / b)%Q.
Proof. intros Ha Hb. apply Qle_shift_div_l; [done|]. lra. Qed.

(** X8. On records whose numeric cells are not negative, with column
    totals within the range of int64 (so that no integer total wraps),
    every row of the table has non-negative totals and non-negative
    [ROAS], [Cost_Per_Call], [Revenue_Per_Call] and [Conversion_Rate]. *)
Theorem table_nonneg (df : list daily_record) (agency : option string)
    (row : campaign_row) :
  (forall r, r ∈ df -> nonneg_record r) ->
  totals_within int64_max df ->
  row ∈ calculate_campaign_metrics df agency ->
  (0 <= Total_Revenue row /\ 0 <= Total_Cost row /\ 0 <= Total_Calls row
   /\ 0 <= Total_Paid_Calls row /\ 0 <= Total_Sales row
   /\ 0 <= ROAS row /\ 0 <= Cost_Per_Call row /\ 0 <= Revenue_Per_Call row
   /\ 0 <= Conversion_Rate row)%Q.
Proof.
  intros Hdf _ [-> _]%table_row_group.
  set (g := group (filter_agency df agency) (Name row)).
  assert (Hg : forall r, r ∈ g -> nonneg_record r).
  { intros r Hr. apply Hdf. apply (filter_agency_elem df agency).
    unfold g, group in Hr. apply list_elem_of_In, filter_In in Hr as [Hr _].
    by apply list_elem_of_In. }
  assert (Hrev : (0 <= agg_sum Revenue g)%Q)
    by (apply agg_sum_nonneg; intros r Hr; apply (Hg r Hr)).
  assert (Hcost : (0 <= agg_sum Lead_Cost g)%Q)
    by (apply agg_sum_nonneg; intros r Hr; apply (Hg r Hr)).
  assert (Hcalls : (0 <= agg_sum Total_Calls_d g)%Q)
    by (apply agg_sum_nonneg; intros r Hr; apply (Hg r Hr)).
  assert (Hpaid : (0 <= agg_sum Paid_Calls g)%Q)
    by (apply agg_sum_nonneg; intros r Hr; apply (Hg r Hr)).
  assert (Hsales : (0 <= agg_sum Unique_Sales g)%Q)
    by (apply agg_sum_nonneg; intros r Hr; apply (Hg r Hr)).
  simpl. repeat split; try done.
  - by apply Qdiv_nonneg, replace_0_1_pos.
  - by apply Qdiv_nonneg, replace_0_1_pos.
  - by apply Qdiv_nonneg, replace_0_1_pos.
  - apply Qmult_le_0_compat; [|done]. by apply Qdiv_nonneg, replace_0_1_pos.
Qed.

(** ** The campaign view against the aggregator *)

Lemma table_loc (df : list daily_record) (agency : option string) (c : string) :
  c ∈ group_labels (filter_agency df agency) ->
  loc (calculate_campaign_metrics df agency) c
  = Some (aggregate c (group (filter_agency df agency) c)).
Proof.
  intros Hc.
  apply (loc_unique (calculate_campaign_metrics df agency)
           (aggregate c (group (filter_agency df agency) c))).
  - apply calculate_campaign_metrics_NoDup.
  - unfold calculate_campaign_metrics. change (map ?f ?l) with (f <$> l).
    apply list_elem_of_fmap. by exists c.
Qed.

(** X9. For a single campaign the key figures of the campaign view are
    the columns of that campaign's row in the table of
    [calculate_campaign_metrics] for the same agency: the two pieces of
    code agree on revenue, cost, sales and ROAS.  The cells are
    non-negative integers with column totals up to 2^53, so that the two
    summations round nothing.  (The agency is not the empty text, which
    the view filters on and the aggregator ignores.) *)
Theorem campaign_kpis_agree_with_table (df : list daily_record)
    (selected_agency selected_campaign : string) :
  (forall r, r ∈ df -> whole_record r) ->
  totals_within two53 df ->
  selected_agency <> "" ->
  selected_campaign <> "All" ->
  (exists r, r ∈ select Agency selected_agency df
             /\ Campaign r = selected_campaign) ->
  exists row,
    loc (calculate_campaign_metrics df (Some selected_agency)) selected_campaign
      = Some row
    /\ kpi_total_revenue (campaign_kpis df selected_agency selected_campaign)
       = Total_Revenue row
    /\ kpi_total_cost (campaign_kpis df selected_agency selected_campaign)
       = Total_Cost row
    /\ kpi_total_sales (campaign_kpis df selected_agency selected_campaign)
       = Total_Sales row
    /\ kpi_roas (campaign_kpis df selected_agency selected_campaign)
       = ROAS row.
Proof.
  intros _ _ Hagency Hcampaign Hocc.
  assert (Hsame : filter_agency df (Some selected_agency)
                  = select Agency selected_agency df).
  { unfold filter_agency, select.
    apply String.eqb_neq in Hagency. by rewrite Hagency. }
  assert (Hgroup : select Campaign selected_campaign
                     (select Agency selected_agency df)
                   = group (filter_agency df (Some selected_agency))
                       selected_campaign).
  { rewrite Hsame. unfold select at 1.
    apply String.eqb_neq in Hcampaign. by rewrite Hcampaign. }
  eexists. split.
  - apply table_loc. apply group_labels_elem. by rewrite Hsame.
  - unfold campaign_kpis. rewrite Hgroup. simpl. done.
Qed.

(** ** The report of the optimizer view *)

(** The optimizer on a table without rows. *)
Lemma table_empty (df : list daily_record) (agency : option string) :
  filter_agency df agency = [] -> calculate_campaign_metrics df agency = [].
Proof. intros H. unfold calculate_campaign_metrics. by rewrite H. Qed.

(** X11. An empty sheet, or an agency without records: the table has no
    row, the optimizer returns the null allocation with the full budget,
    and the view shows the warning. *)
Theorem no_records_no_allocation (df : list daily_record)
    (selected_agency : string) (daily_budget min_roas : Q) (min_calls : Z)
    (fuel : nat) :
  filter_agency df (Some selected_agency) = [] ->
  calculate_campaign_metrics df (Some selected_agency) = []
  /\ optimize_budget fuel (calculate_campaign_metrics df (Some selected_agency))
       daily_budget min_calls min_roas
     = Some (None, daily_budget)
  /\ budget_optimizer_view fuel df selected_agency daily_budget min_roas
     = Some No_Campaigns_Warning.
Proof.
  intros Hnone%table_empty. unfold budget_optimizer_view.
  rewrite Hnone. repeat split.
Qed.

(** X12. The warning "no campaigns meet the ROAS threshold" also appears
    when campaigns do meet it: if every qualifying campaign of the table
    costs more per call than the daily budget, the optimizer returns the
    empty allocation (not the null one) with the whole budget, and the
    view shows the warning. *)
Theorem warning_when_nothing_affordable (df : list daily_record)
    (selected_agency : string) (daily_budget min_roas : Q) (fuel : nat) :
  let stats := calculate_campaign_metrics df (Some selected_agency) in
  (0 <= daily_budget)%Q ->
  (exists row, row ∈ stats /\ (min_roas <= ROAS row)%Q) ->
  (forall row, row ∈ stats -> (min_roas <= ROAS row)%Q ->
               (daily_budget < Cost_Per_Call row)%Q) ->
  optimize_budget (S fuel) stats daily_budget 1 min_roas
    = Some (Some ∅, daily_budget)
  /\ budget_optimizer_view (S fuel) df selected_agency daily_budget min_roas
     = Some No_Campaigns_Warning.
Proof.
  intros stats Hb (r0 & Hin0 & Hq0) Hcost.
  assert (Hmc : 1 <= 1) by lia.
  destruct (nothing_affordable_loops stats daily_budget 1 min_roas fuel
              Hmc Hb Hcost) as [Hseed Hloop].
  assert (Hrun : optimize_budget (S fuel) stats daily_budget 1 min_roas
                 = Some (Some ∅, daily_budget)).
  { rewrite optimize_budget_unfold, Hseed.
    pose proof (select_profitable_nonempty _ _ _ Hin0 Hq0) as Hne.
    destruct (select_profitable stats min_roas) as [|r rs]; [done|].
    cbn [fst snd]. by rewrite Hloop. }
  split; [done|].
  unfold budget_optimizer_view. fold stats. rewrite Hrun.
  by rewrite bool_decide_eq_true_2.
Qed.

(** ** The cleaning of a numeric cell *)

Section CleaningFacts.

Lemma is_digit_not_dot (c : ascii) : is_digit c = true -> Ascii.eqb c "." = false.
Proof.
  intros Hd. destruct (Ascii.eqb_spec c ".") as [->|]; [|done].
  vm_compute in Hd. discriminate.
Qed.

Lemma digit_value_nonneg (c : ascii) : is_digit c = true -> 0 <= digit_value c.
Proof.
  unfold is_digit, digit_value. intros [H1 _]%andb_true_iff.
  apply N.leb_le in H1. lia.
Qed.

Lemma take_digits_nonneg (s : string) (acc : Z) (n : nat) :
  0 <= acc -> 0 <= (take_digits s acc n).1.1.
Proof.
  revert acc n. induction s as [|c s IH]; intros acc n Hacc; simpl; [done|].
  destruct (is_digit c) eqn:E; [|done].
  apply IH. pose proof (digit_value_nonneg c E). lia.
Qed.

Lemma to_numeric_nonneg (s : string) (q : Q) :
  to_numeric s = Some q -> (0 <= q)%Q.
Proof.
  unfold to_numeric.
  pose proof (take_digits_nonneg s 0 0 (Z.le_refl 0)) as Hint.
  destruct (take_digits s 0 0) as [[int_part n_int] rest]. simpl in Hint.
  assert (Hi : (0 <= inject_Z int_part)%Q)
    by (change 0%Q with (inject_Z 0); by rewrite <- Zle_Qle).
  destruct rest as [|c frac].
  - destruct (Nat.eqb n_int 0); [done|]. by intros [= <-].
  - destruct (Ascii.eqb c "."); [|done].
    pose proof (take_digits_nonneg frac 0 0 (Z.le_refl 0)) as Hfrac.
    destruct (take_digits frac 0 0) as [[frac_part n_frac] rest']. simpl in Hfrac.
    destruct rest'; [|done].
    destruct (Nat.eqb (n_int + n_frac) 0); [done|]. intros [= <-].
    assert (Hf : (0 <= inject_Z frac_part)%Q)
      by (change 0%Q with (inject_Z 0); by rewrite <- Zle_Qle).
    assert (Hp : (0 < inject_Z (10 ^ Z.of_nat n_frac))%Q).
    { change 0%Q with (inject_Z 0). rewrite <- Zlt_Qlt.
      apply Z.pow_pos_nonneg; lia. }
    pose proof (Qdiv_nonneg _ _ Hf Hp). lra.
Qed.

Lemma strip_app (s1 s2 : string) :
  strip (s1 ++ s2) = (strip s1 ++ strip s2)%string.
Proof.
  induction s1 as [|c s1 IH]; simpl; [done|].
  destruct (kept c); simpl; by rewrite IH.
Qed.

Lemma dots_strip (s : string) : dots (strip s) = dots s.
Proof.
  induction s as [|c s IH]; simpl; [done|].
  unfold kept. destruct (is_digit c) eqn:Ed; simpl.
  - by rewrite IH.
  - destruct (Ascii.eqb c ".") eqn:E; simpl; by rewrite ?E, IH.
Qed.

Lemma digits_strip (s : string) : digits (strip s) = digits s.
Proof.
  induction s as [|c s IH]; simpl; [done|].
  unfold kept. destruct (is_digit c) eqn:Ed; simpl.
  - by rewrite Ed, IH.
  - destruct (Ascii.eqb c ".") eqn:E; simpl; by rewrite ?Ed, IH.
Qed.

(** Taking the leading digits removes no dot. *)
Lemma take_digits_dots (s : string) (acc : Z) (n : nat) :
  dots (take_digits s acc n).2 = dots s.
Proof.
  revert acc n. induction s as [|c s IH]; intros acc n; simpl; [done|].
  destruct (is_digit c) eqn:E; [|done].
  by rewrite IH, (is_digit_not_dot c E).
Qed.

Lemma take_digits_none (s : string) (acc : Z) (n : nat) :
  digits s = 0%nat -> take_digits s acc n = (acc, n, s).
Proof.
  destruct s as [|c s]; simpl; [done|].
  by destruct (is_digit c).
Qed.

End CleaningFacts.

(** X13. [clean_numeric] never yields a negative number: whatever the
    (ASCII) text of the cell, its cleaned value is at least 0. *)
Theorem clean_cell_nonneg (s : string) :
  is_ascii s = true -> (0 <= clean_cell s)%Q.
Proof.
  intros _. unfold clean_cell.
  destruct (to_numeric (replace_empty (strip s))) as [q|] eqn:E; simpl.
  - by apply to_numeric_nonneg in E.
  - lra.
Qed.

(** X14. Only the digits and the dots of a cell count: a character that is
    neither (a minus sign, a currency sign, a comma, a blank, a letter),
    wherever it stands, does not change the cleaned value. *)
Theorem clean_cell_ignores_other_characters (s1 s2 : string) (c : ascii) :
  is_ascii (s1 ++ String c s2) = true ->
  kept c = false ->
  clean_cell (s1 ++ String c s2) = clean_cell (s1 ++ s2).
Proof.
  intros _ Hc. unfold clean_cell.
  rewrite !strip_app. simpl. by rewrite Hc.
Qed.

(** X15. A cell with two or more dots, or without any digit, is cleaned
    to 0. *)
Theorem clean_cell_zero (s : string) :
  is_ascii s = true ->
  (2 <= dots s)%nat \/ digits s = 0%nat ->
  clean_cell s = 0%Q.
Proof.
  intros _ Hs. unfold clean_cell.
  rewrite <- (dots_strip s), <- (digits_strip s) in Hs.
  set (t := strip s) in *.
  assert (Hgoal : to_numeric (replace_empty t) = None
                  \/ to_numeric (replace_empty t) = Some 0%Q);
    [|by destruct Hgoal as [-> | ->]].
  destruct Hs as [Hdots|Hdigits].
  - left.
    assert (Ht : replace_empty t = t).
    { destruct t; [simpl in Hdots; lia | done]. }
    rewrite Ht. unfold to_numeric.
    pose proof (take_digits_dots t 0 0) as Hrest.
    destruct (take_digits t 0 0) as [[int_part n_int] rest]. simpl in Hrest.
    destruct rest as [|c frac]; [simpl in Hrest; lia|].
    destruct (Ascii.eqb c ".") eqn:E; [|done].
    simpl in Hrest. rewrite E in Hrest.
    pose proof (take_digits_dots frac 0 0) as Hrest'.
    destruct (take_digits frac 0 0) as [[frac_part n_frac] rest']. simpl in Hrest'.
    destruct rest'; [simpl in Hrest'; lia | done].
  - destruct t as [|c t']; [by right|]. left.
    change (replace_empty (String c t')) with (String c t').
    unfold to_numeric. rewrite take_digits_none by done.
    destruct (Ascii.eqb c "."); [|done].
    simpl in Hdigits. destruct (is_digit c); [done|].
    rewrite take_digits_none by done.
    by destruct t'.
Qed.

Section Decimal.

Lemma take_digits_uint (d : Decimal.uint) (acc n : nat) :
  take_digits (DecimalString.NilEmpty.string_of_uint d) (Z.of_nat acc) n
  = (Z.of_nat (Nat.of_uint_acc d acc),
     (n + String.length (DecimalString.NilEmpty.string_of_uint d))%nat,
     EmptyString).
Proof.
  revert acc n.
  induction d as [|d IH|d IH|d IH|d IH|d IH|d IH|d IH|d IH|d IH|d IH];
    intros acc n; cbn [DecimalString.NilEmpty.string_of_uint Nat.of_uint_acc];
    [simpl; by rewrite Nat.add_0_r|..];
    cbn [take_digits]; change (is_digit _) with true; cbv iota;
    rewrite Nat.tail_mul_spec;
    match goal with
    | |- context [digit_value ?c] =>
        let v := eval vm_compute in (digit_value c) in
        change (digit_value c) with v
    end;
    match goal with
    | |- take_digits _ ?v _ = (Z.of_nat (Nat.of_uint_acc _ ?w), _, _) =>
        replace v with (Z.of_nat w) by lia
    end;
    rewrite IH; simpl String.length; f_equal; f_equal; lia.
Qed.

Lemma strip_uint (d : Decimal.uint) :
  strip (DecimalString.NilEmpty.string_of_uint d)
  = DecimalString.NilEmpty.string_of_uint d.
Proof.
  induction d; simpl; try done;
    change (kept _) with true; cbv iota; by rewrite IHd.
Qed.

End Decimal.

(** X16. A cell that holds a natural number up to 2^53 in decimal is
    cleaned to that number, and so is the cell with a minus sign in front:
    the sign of a negative amount is lost. *)
Theorem clean_cell_of_decimal (n : nat) :
  Z.of_nat n <= 2 ^ 53 ->
  let text := DecimalString.NilEmpty.string_of_uint (Nat.to_uint n) in
  clean_cell text = inject_Z (Z.of_nat n)
  /\ clean_cell (String "-" text) = inject_Z (Z.of_nat n).
Proof.
  intros _ text.
  assert (Hclean : clean_cell text = inject_Z (Z.of_nat n)).
  { unfold clean_cell, text. rewrite strip_uint.
    pose proof (DecimalNat.Unsigned.of_to n) as Hn. unfold Nat.of_uint in Hn.
    destruct (DecimalString.NilEmpty.string_of_uint (Nat.to_uint n))
      as [|c s] eqn:E.
    - destruct (Nat.to_uint n); try discriminate E. simpl in Hn. by subst n.
    - change (replace_empty (String c s)) with (String c s).
      unfold to_numeric. rewrite <- E.
      pose proof (take_digits_uint (Nat.to_uint n) 0 0) as Ht.
      change (Z.of_nat 0) with 0 in Ht. rewrite Ht, Hn, E. done. }
  split; [done|].
  rewrite <- Hclean. unfold clean_cell. simpl strip.
  by change (kept "-") with false.
Qed.

(** ** The column labels after loading *)

Section LoaderFacts.

Context {A : Type}.

Implicit Types (cols : list (@column A)) (seen : list (option string)).

Lemma drop_duplicated_elem seen cols (col : @column A) :
  col ∈ drop_duplicated seen cols -> (col.1 ∉ seen) /\ col ∈ cols.
Proof.
  revert seen. induction cols as [|c cols IH]; intros seen; simpl.
  - by intros ?%elem_of_nil.
  - destruct (bool_decide (c.1 ∈ seen)) eqn:E.
    + intros [Hs Hin]%IH. split; [done|]. apply elem_of_cons. by right.
    + apply bool_decide_eq_false in E.
      intros [->|[Hs Hin]%IH]%elem_of_cons.
      * split; [done|]. apply elem_of_cons. by left.
      * split; [|apply elem_of_cons; by right].
        intros Hseen. apply Hs, elem_of_cons. by right.
Qed.

Lemma drop_duplicated_NoDup seen cols :
  NoDup (map fst (drop_duplicated seen cols)).
Proof.
  revert seen. induction cols as [|c cols IH]; intros seen; simpl.
  - constructor.
  - destruct (bool_decide (c.1 ∈ seen)); [apply IH|].
    simpl. apply NoDup_cons. split; [|apply IH].
    change (map fst ?l) with (fst <$> l).
    intros (col & Heq & [Hs _]%drop_duplicated_elem)%list_elem_of_fmap.
    apply Hs. rewrite Heq. apply elem_of_cons. by left.
Qed.

Lemma drop_duplicated_sublist seen cols :
  sublist (drop_duplicated seen cols) cols.
Proof.
  revert seen. induction cols as [|c cols IH]; intros seen; simpl.
  - constructor.
  - destruct (bool_decide (c.1 ∈ seen)).
    + apply sublist_cons, IH.
    + apply sublist_skip, IH.
Qed.

Lemma filter_sublist {B} (f : B -> bool) (l : list B) :
  sublist (List.filter f l) l.
Proof.
  induction l as [|x l IH]; simpl; [constructor|].
  destruct (f x); [by apply sublist_skip | by apply sublist_cons].
Qed.

Lemma find_filter {B} (p q : B -> bool) (l : list B) :
  (forall x, p x = true -> q x = true) ->
  List.find p (List.filter q l) = List.find p l.
Proof.
  intros Hpq. induction l as [|x l IH]; simpl; [done|].
  destruct (q x) eqn:Eq; simpl.
  - by rewrite IH.
  - destruct (p x) eqn:Ep; [|done]. apply Hpq in Ep. congruence.
Qed.

(** The first column with a label survives the removal of duplicates. *)
Lemma find_drop_duplicated seen cols (label : string) :
  Some label ∉ seen ->
  List.find (fun col : @column A => bool_decide (col.1 = Some label))
    (drop_duplicated seen cols)
  = List.find (fun col : @column A => bool_decide (col.1 = Some label)) cols.
Proof.
  revert seen. induction cols as [|c cols IH]; intros seen Hseen; simpl; [done|].
  destruct (bool_decide (c.1 ∈ seen)) eqn:E.
  - apply bool_decide_eq_true in E.
    rewrite bool_decide_eq_false_2 by (intros Heq; by rewrite Heq in E).
    by apply IH.
  - simpl. destruct (bool_decide (c.1 = Some label)) eqn:El; [done|].
    apply bool_decide_eq_false in El. apply IH.
    intros [Heq|Hin]%elem_of_cons; [by rewrite <- Heq in El | done].
Qed.

(** X17. After the three selections of a loader the column labels are
    distinct, none is missing or empty, the columns stand in their old
    order, and under every non-empty label the sheet holds the first
    column that carried that label. *)
Theorem clean_columns_labels cols :
  let out := clean_columns cols in
  NoDup (map fst out)
  /\ (forall col, col ∈ out -> exists l, col.1 = Some l /\ l <> "")
  /\ sublist out cols
  /\ (forall l, l <> "" -> column_of out l = column_of cols l).
Proof.
  intros out. unfold out, clean_columns. repeat split.
  - apply (sublist_NoDup _ _ (drop_duplicated_NoDup [] cols)).
    change (map fst ?l) with (fst <$> l). apply fmap_sublist.
    etrans; apply filter_sublist.
  - intros col Hin. unfold drop_empty, drop_na in Hin.
    apply list_elem_of_In, filter_In in Hin as [Hin Hne].
    apply filter_In in Hin as [_ Hsome].
    destruct (col.1) as [l|] eqn:E; [|done]. exists l. split; [done|].
    intros ->. by rewrite bool_decide_eq_true_2 in Hne.
  - etrans; [apply filter_sublist|]. etrans; [apply filter_sublist|].
    apply drop_duplicated_sublist.
  - intros l Hl. unfold column_of, drop_empty, drop_na. f_equal.
    rewrite !find_filter.
    + apply find_drop_duplicated. by intros ?%elem_of_nil.
    + intros col Hcol. apply bool_decide_eq_true in Hcol. by rewrite Hcol.
    + intros col Hcol. apply bool_decide_eq_true in Hcol. rewrite Hcol.
      rewrite bool_decide_eq_false_2; [done|]. by intros [= ->].
Qed.

End LoaderFacts.

(** ** The week of the home view *)

(** X18. The week of the home view starts on the last Sunday: the day
    computed from [today] is a Sunday, is not after [today], lies less
    than a week back, and is [today] itself exactly when today is a
    Sunday. *)
Theorem week_start_is_last_sunday (today : Z) :
  weekday (week_start today) = 6
  /\ week_start today <= today < week_start today + 7
  /\ (week_start today = today <-> weekday today = 6).
Proof.
  unfold week_start, weekday.
  pose proof (Z.mod_pos_bound (today + 6) 7 ltac:(lia)) as Hw.
  set (w := (today + 6) mod 7) in *.
  assert (Hk : (w + 1) mod 7 = if decide (w = 6) then 0 else w + 1).
  { destruct (decide (w = 6)) as [->|Hne]; [done|].
    apply Z.mod_small. lia. }
  rewrite Hk. destruct (decide (w = 6)) as [Hw6|Hw6].
  - rewrite Z.sub_0_r. fold w. repeat split; lia.
  - assert (Hs : (today - (w + 1) + 6) mod 7 = 6).
    { pose proof (Z.div_mod (today + 6) 7 ltac:(lia)) as Hdiv. fold w in Hdiv.
      replace (today - (w + 1) + 6) with (6 + ((today + 6) / 7 - 1) * 7) by lia.
      rewrite Z.mod_add by lia. done. }
    repeat split; lia.
Qed.

(** ** The further theorems at concrete inputs *)

Lemma optimize_budget_stops_when_nothing_fits_witness :
  (100 / inject_Z 10 * 1.5 <= inject_Z 15)%Q \/ (10 < 10)%Q.
Proof.
  assert (Hrun : optimize_budget 22 stats_AB 200 1 1
                 = Some (Some {[ "A" := 15; "B" := 8 ]}, 10%Q))
    by (vm_compute; reflexivity).
  assert (Hleft : (0 < 10)%Q) by reflexivity.
  assert (Hin : stats_row "A" 10 15 1.5 100 10 ∈ stats_AB)
    by (apply elem_of_cons; by left).
  assert (Hq : (1 <= ROAS (stats_row "A" 10 15 1.5 100 10))%Q)
    by (unfold Qle; simpl; lia).
  assert (Hdays : 0 < Days_Active (stats_row "A" 10 15 1.5 100 10))
    by reflexivity.
  exact (optimize_budget_stops_when_nothing_fits stats_AB 200 1 1 22 _ _
           stats_AB_NoDup Hrun Hleft _ Hin Hq Hdays).
Defined.

Lemma incremental_pass_serves_first_eligible_witness :
  exists before c after,
    index (ranked stats_AB 1) = before ++ c :: after
    /\ before = ["A"] /\ c = "B".
Proof.
  assert (Hscan : scan (ranked stats_AB 1) (index (ranked stats_AB 1))
                    {[ "A" := 15; "B" := 1 ]} 45
                  = Some ({[ "A" := 15; "B" := 2 ]}, 40%Q))
    by (vm_compute; reflexivity).
  destruct (incremental_pass_serves_first_eligible stats_AB 1 _ _ _ _ Hscan)
    as (before & c & after & Hsplit & Hbefore & Hb & _).
  exists before, c, after. split; [exact Hsplit|].
  change (index (ranked stats_AB 1)) with ["A"; "B"] in Hsplit.
  destruct before as [|b1 before].
  - exfalso. injection Hsplit as <- _. vm_compute in Hb. discriminate Hb.
  - injection Hsplit as <- Hrest.
    destruct before as [|b2 before].
    + injection Hrest as <- _. by split.
    + exfalso. injection Hrest as _ Hrest. by destruct before.
Defined.

Lemma optimize_budget_nothing_affordable_witness :
  optimize_budget 1 stats_single 5 1 1 = Some (Some ∅, 5%Q).
Proof.
  apply optimize_budget_nothing_affordable.
  - lia.
  - unfold Qle; simpl; lia.
  - exists (stats_row "C" 10 20 2 10 1). split.
    + apply elem_of_cons. by left.
    + unfold Qle; simpl; lia.
  - intros r Hr _. each_row Hr. reflexivity.
Defined.

Lemma stats_AB_run :
  optimize_budget 22 stats_AB 200 1 1
  = Some (Some {[ "A" := 15; "B" := 8 ]}, 10%Q).
Proof. vm_compute. reflexivity. Defined.

Lemma stats_AB_costs :
  forall r, r ∈ stats_AB -> (1 <= ROAS r)%Q -> (0 <= Cost_Per_Call r)%Q.
Proof. intros r Hr _. each_row Hr; vm_compute; discriminate. Defined.

Lemma optimize_budget_leftover_at_most_budget_witness :
  (10 <= 200)%Q /\ 0 <= 8.
Proof.
  assert (Hmc : 0 <= 1) by lia.
  pose proof (optimize_budget_leftover_at_most_budget stats_AB 200 1 1 22
                {[ "A" := 15; "B" := 8 ]} 10 Hmc stats_AB_costs stats_AB_run)
    as [Hleft Hcounts].
  split; [exact Hleft|].
  apply (Hcounts "B"). vm_compute. reflexivity.
Defined.

Lemma table_labels_witness :
  index (calculate_campaign_metrics sheet_three None) = ["radio"; "web"]
  /\ ("web" ∈ index (calculate_campaign_metrics sheet_three None)
      <-> exists r, r ∈ filter_agency sheet_three None /\ Campaign r = "web").
Proof.
  split; [vm_compute; reflexivity|].
  apply (proj2 (proj2 (table_labels sheet_three None))).
Defined.

Lemma table_nonneg_witness :
  let row := aggregate "web" (group sheet_three "web") in
  (0 <= ROAS row)%Q /\ (0 <= Cost_Per_Call row)%Q.
Proof.
  intros row.
  assert (Hrow : row ∈ calculate_campaign_metrics sheet_three None).
  { apply elem_of_cons. right. apply elem_of_cons. left.
    vm_compute. reflexivity. }
  assert (Hdf : forall r, r ∈ sheet_three -> nonneg_record r).
  { intros r Hr. each_row Hr; repeat split; unfold Qle; simpl; lia. }
  assert (Hfit : totals_within int64_max sheet_three)
    by (repeat split; vm_compute; discriminate).
  destruct (table_nonneg sheet_three None row Hdf Hfit Hrow)
    as (_ & _ & _ & _ & _ & Hroas & Hcost & _).
  by split.
Defined.

Lemma sheet_three_whole : forall r, r ∈ sheet_three -> whole_record r.
Proof.
  intros r Hr. each_row Hr; repeat split; vm_compute;
    first [reflexivity | discriminate].
Defined.

Lemma table_totals_witness :
  (column_total Total_Revenue (calculate_campaign_metrics sheet_three None)
   == agg_sum Revenue sheet_three)%Q
  /\ days_total (calculate_campaign_metrics sheet_three None) = 3.
Proof.
  destruct (table_totals sheet_three None) as [Hdays Htotals].
  split; [|exact Hdays].
  apply Htotals.
  - apply sheet_three_whole.
  - repeat split; vm_compute; discriminate.
Defined.

Lemma clean_cell_of_decimal_witness :
  clean_cell "42" = 42%Q /\ clean_cell "-42" = 42%Q.
Proof.
  apply (clean_cell_of_decimal 42). vm_compute. discriminate.
Defined.

Lemma campaign_kpis_agree_with_table_witness :
  exists row,
    loc (calculate_campaign_metrics sheet_three (Some "North")) "web" = Some row
    /\ kpi_roas (campaign_kpis sheet_three "North" "web") = ROAS row.
Proof.
  destruct (campaign_kpis_agree_with_table sheet_three "North" "web")
    as (row & Hloc & _ & _ & _ & Hroas).
  - apply sheet_three_whole.
  - repeat split; vm_compute; discriminate.
  - discriminate.
  - discriminate.
  - exists {| Date := 1; Agency := "North"; Campaign := "web";
               Revenue := 100; Lead_Cost := 50; Total_Calls_d := 10;
               Paid_Calls := 5; Unique_Sales := 2 |}.
    split; [|reflexivity]. vm_compute. apply elem_of_cons. by left.
  - by exists row.
Defined.

Lemma no_records_no_allocation_witness :
  budget_optimizer_view 0 sheet_three "West" 100 1 = Some No_Campaigns_Warning.
Proof.
  apply (no_records_no_allocation sheet_three "West" 100 1 1 0).
  vm_compute. reflexivity.
Defined.

Lemma warning_when_nothing_affordable_witness :
  optimize_budget 1 (calculate_campaign_metrics sheet_three (Some "All")) 5 1 1
    = Some (Some ∅, 5%Q)
  /\ budget_optimizer_view 1 sheet_three "All" 5 1 = Some No_Campaigns_Warning.
Proof.
  apply (warning_when_nothing_affordable sheet_three "All" 5 1 0).
  - unfold Qle; simpl; lia.
  - eexists. split.
    + vm_compute. apply elem_of_cons. right. apply elem_of_cons. by left.
    + vm_compute. discriminate.
  - intros row Hrow Hq.
    vm_compute in Hrow. each_row Hrow.
    + exfalso. vm_compute in Hq. by apply Hq.
    + reflexivity.
Defined.

Lemma clean_cell_nonneg_witness : (0 <= clean_cell "$1,234.50")%Q.
Proof. apply clean_cell_nonneg. reflexivity. Defined.

Lemma clean_cell_ignores_other_characters_witness :
  clean_cell "1,234" = clean_cell "1234".
Proof.
  apply (clean_cell_ignores_other_characters "1" "234" ","); reflexivity.
Defined.

Lemma clean_cell_zero_witness : clean_cell "1.2.3" = 0%Q.
Proof.
  apply clean_cell_zero; [reflexivity|]. left. simpl. lia.
Defined.

Lemma clean_columns_labels_witness :
  column_of
    (clean_columns [ (Some "Date", 1); (Some "", 2); (None, 3);
                     (Some "Date", 4); (Some "Revenue", 5) ])
    "Date"
  = Some 1.
Proof.
  rewrite (proj2 (proj2 (proj2 (clean_columns_labels
             [ (Some "Date", 1); (Some "", 2); (None, 3);
               (Some "Date", 4); (Some "Revenue", 5) ]))) "Date").
  - reflexivity.
  - discriminate.
Defined.

Lemma week_start_is_last_sunday_witness :
  weekday (week_start 739924) = 6 /\ week_start 739924 = 739921.
Proof.
  split; [apply (week_start_is_last_sunday 739924) | reflexivity].
Defined.
